(** * TrainingParam: a shallow embedding of
      [l2rpn_baselines/utils/TrainingParam.py]

    The Python class [TrainingParam] stores the hyper-parameters of a
    reinforcement-learning agent, computes the epsilon-greedy decay
    schedule, and is saved to / loaded from a JSON file.

    Modelling choices.
    - Python numbers are dynamically typed: a [value] is an [int]
      (unbounded, so [Z]) or a [float].
    - The floats held by the attributes are read as the real numbers they
      denote (exact arithmetic): no rounding, no overflow, no NaN and no
      infinities.  Wherever IEEE behaviour would matter this is said next
      to the definition.
    - [default_max_iter_fun] turns an int into an int through a float
      product; there the floats are those of binary64, with the rounding
      of the library's [SpecFloat].
    - Methods that read or write [self] live in a small state-and-exception
      monad: the state that a method leaves behind is kept even when the
      method raises, as in Python.
    - The file system is a tree of directories and files; a path string is
      resolved name by name, from the root or from the current
      directory.
    - [from_json] reads its dictionary with [json.load], whose results
      (any JSON document, with [Infinity] and [NaN] among its numbers) go
      beyond the numbers above: it is left out.  [from_dict], which it
      calls, is there, on dictionaries of numbers. *)

From Stdlib Require Import ZArith Reals List String Ascii Bool.
From Stdlib Require Import Lia Lra Permutation Sorted DecimalString.
From Stdlib Require Import SpecFloat.
Import ListNotations.

(** ** Python numbers *)

Inductive value : Type :=
| PInt (z : Z)
| PFloat (r : R).

(** The real number a Python number denotes. *)
Definition to_R (v : value) : R :=
  match v with
  | PInt z => IZR z
  | PFloat r => r
  end.

Definition is_int (v : value) : bool :=
  match v with PInt _ => true | PFloat _ => false end.

Definition is_float (v : value) : bool :=
  match v with PInt _ => false | PFloat _ => true end.

(** Boolean tests on reals, from the decision procedures of the library. *)
Definition Rgtb (x y : R) : bool := if Rlt_dec y x then true else false.
Definition Reqb (x y : R) : bool := if Req_dec_T x y then true else false.

(** Truncation toward zero, as [int(x)] does on a float [x]. *)
Definition Rtrunc (r : R) : Z :=
  if Rle_dec 0 r then Int_part r else (- Int_part (- r))%Z.

(** ** Exceptions and results *)

(** The exception classes this code raises, itself or through the
    operators and library calls it uses. *)
Inductive exn : Type :=
| ZeroDivisionError
| OverflowError
| ValueError
| AttributeError (name : string)
| KeyError (key : string)
| RuntimeError (msg : string)
| FileNotFoundError (filename : string)
| NotADirectoryError (msg : string)
| IsADirectoryError (filename : string)
| OSError (msg : string).

Inductive result (A : Type) : Type :=
| Ok (a : A)
| Raise (e : exn).

Arguments Ok {A} a.
Arguments Raise {A} e.

Definition rbind {A B} (r : result A) (k : A -> result B) : result B :=
  match r with
  | Ok a => k a
  | Raise e => Raise e
  end.

(** ** Python operators on numbers *)

(** [float(v)] *)
Definition py_float (v : value) : value := PFloat (to_R v).

(** [int(v)] *)
Definition py_int (v : value) : value :=
  match v with
  | PInt z => PInt z
  | PFloat r => PInt (Rtrunc r)
  end.

(** [a > b]: ints are compared as ints, mixed operands by value. *)
Definition py_gt (a b : value) : bool :=
  match a, b with
  | PInt x, PInt y => Z.gtb x y
  | _, _ => Rgtb (to_R a) (to_R b)
  end.

(** [a == b] *)
Definition py_eq (a b : value) : bool :=
  match a, b with
  | PInt x, PInt y => Z.eqb x y
  | _, _ => Reqb (to_R a) (to_R b)
  end.

Definition py_is_zero (v : value) : bool := py_eq v (PInt 0).

(** [- a] *)
Definition py_neg (a : value) : value :=
  match a with
  | PInt x => PInt (- x)
  | PFloat r => PFloat (- r)
  end.

(** [a * b] *)
Definition py_mul (a b : value) : value :=
  match a, b with
  | PInt x, PInt y => PInt (x * y)
  | _, _ => PFloat (to_R a * to_R b)
  end.

(** [a / b]: true division, always a float; a zero divisor raises. *)
Definition py_truediv (a b : value) : result value :=
  if py_is_zero b then Raise ZeroDivisionError
  else Ok (PFloat (to_R a / to_R b)).

(** [a % b]: the result has the sign of the divisor; a zero divisor
    raises.  On floats, exactly, [a - b * floor (a / b)]. *)
Definition py_mod (a b : value) : result value :=
  match a, b with
  | PInt x, PInt y =>
      if Z.eqb y 0 then Raise ZeroDivisionError else Ok (PInt (x mod y))
  | _, _ =>
      if py_is_zero b then Raise ZeroDivisionError
      else Ok (PFloat (to_R a - to_R b * IZR (Int_part (to_R a / to_R b))))
  end.

(** [np.exp(a)] and [np.log(a)] return floats and never raise.
    [np.log] of a number that is not positive is [-inf] or [nan], which a
    real number cannot hold: there the model has the library's [ln], and
    every statement that depends on the value of a logarithm assumes its
    argument positive. *)
Definition np_exp (a : value) : value := PFloat (exp (to_R a)).
Definition np_log (a : value) : value := PFloat (ln (to_R a)).

(** ** The object *)

Record TrainingParam : Type := mkTrainingParam {
  buffer_size : value;
  minibatch_size : value;
  min_observation : value;
  final_epsilon : value;
  initial_epsilon : value;
  step_for_final_epsilon : value;
  lr : value;
  lr_decay_steps : value;
  lr_decay_rate : value;
  last_step : value;
  num_frames : value;
  discount_factor : value;
  tau : value;
  update_freq : value;
  min_iter : value;
  max_iter : value;
  _exp_facto : value;
  max_iter_fun : Z -> result value;
  update_tensorboard_freq : value;
  save_model_each : value
}.

Local Open Scope string_scope.

(** The class attributes [_int_attr] and [_float_attr]. *)
Definition _int_attr : list string :=
  ["buffer_size"; "minibatch_size"; "step_for_final_epsilon";
   "min_observation"; "last_step"; "num_frames"; "update_freq";
   "min_iter"; "max_iter"; "update_tensorboard_freq"; "save_model_each"].

Definition _float_attr : list string :=
  ["final_epsilon"; "initial_epsilon"; "lr"; "lr_decay_steps";
   "lr_decay_rate"; "discount_factor"; "tau"].

(** The numeric attributes of an instance, by name. *)
Definition attrs (self : TrainingParam) : list (string * value) :=
  [("buffer_size", buffer_size self);
   ("minibatch_size", minibatch_size self);
   ("min_observation", min_observation self);
   ("final_epsilon", final_epsilon self);
   ("initial_epsilon", initial_epsilon self);
   ("step_for_final_epsilon", step_for_final_epsilon self);
   ("lr", lr self);
   ("lr_decay_steps", lr_decay_steps self);
   ("lr_decay_rate", lr_decay_rate self);
   ("last_step", last_step self);
   ("num_frames", num_frames self);
   ("discount_factor", discount_factor self);
   ("tau", tau self);
   ("update_freq", update_freq self);
   ("min_iter", min_iter self);
   ("max_iter", max_iter self);
   ("_exp_facto", _exp_facto self);
   ("update_tensorboard_freq", update_tensorboard_freq self);
   ("save_model_each", save_model_each self)].

Fixpoint assoc (k : string) (l : list (string * value)) : option value :=
  match l with
  | [] => None
  | (k', v) :: l' => if String.eqb k k' then Some v else assoc k l'
  end.

(** [getattr(self, nm)] *)
Definition getattr (self : TrainingParam) (nm : string) : result value :=
  match assoc nm (attrs self) with
  | Some v => Ok v
  | None => Raise (AttributeError nm)
  end.

(** [setattr(self, nm, v)] on the name of a numeric attribute: that
    attribute is rebound, every other one is left as it is. *)
Definition setattr (self : TrainingParam) (nm : string) (v : value)
  : TrainingParam :=
  let pick (k : string) (old : value) := if String.eqb nm k then v else old in
  {| buffer_size := pick "buffer_size" (buffer_size self);
     minibatch_size := pick "minibatch_size" (minibatch_size self);
     min_observation := pick "min_observation" (min_observation self);
     final_epsilon := pick "final_epsilon" (final_epsilon self);
     initial_epsilon := pick "initial_epsilon" (initial_epsilon self);
     step_for_final_epsilon :=
       pick "step_for_final_epsilon" (step_for_final_epsilon self);
     lr := pick "lr" (lr self);
     lr_decay_steps := pick "lr_decay_steps" (lr_decay_steps self);
     lr_decay_rate := pick "lr_decay_rate" (lr_decay_rate self);
     last_step := pick "last_step" (last_step self);
     num_frames := pick "num_frames" (num_frames self);
     discount_factor := pick "discount_factor" (discount_factor self);
     tau := pick "tau" (tau self);
     update_freq := pick "update_freq" (update_freq self);
     min_iter := pick "min_iter" (min_iter self);
     max_iter := pick "max_iter" (max_iter self);
     _exp_facto := pick "_exp_facto" (_exp_facto self);
     max_iter_fun := max_iter_fun self;
     update_tensorboard_freq :=
       pick "update_tensorboard_freq" (update_tensorboard_freq self);
     save_model_each := pick "save_model_each" (save_model_each self) |}.

(** ** A state-and-exception monad for methods *)

(** A computation over a state [St]: it returns a value or raises, and
    in both cases leaves a state behind. *)
Definition M (St A : Type) : Type := St -> result A * St.

Definition ret {St A} (a : A) : M St A := fun s => (Ok a, s).

Definition bind {St A B} (m : M St A) (k : A -> M St B) : M St B :=
  fun s =>
    match m s with
    | (Ok a, s') => k a s'
    | (Raise e, s') => (Raise e, s')
    end.

Definition get {St} : M St St := fun s => (Ok s, s).

Definition modify {St} (f : St -> St) : M St unit := fun s => (Ok tt, f s).

(** An operator or library call that may raise, run inside a method. *)
Definition lift {St A} (r : result A) : M St A := fun s => (r, s).

Declare Scope method_scope.
Delimit Scope method_scope with method.

Notation "x <- c1 ;; c2" := (bind c1 (fun x => c2))
  (at level 61, c1 at next level, right associativity) : method_scope.
Notation "c1 ;; c2" := (bind c1 (fun _ => c2))
  (at level 61, right associativity) : method_scope.

Local Open Scope method_scope.

(** [for x in l: body(x)] *)
Fixpoint for_each {St A} (l : list A) (body : A -> M St unit) : M St unit :=
  match l with
  | [] => ret tt
  | x :: l' => body x ;; for_each l' body
  end.

(** [for x in l: acc = body(acc, x)], for a loop that updates a local. *)
Fixpoint for_fold {St A B} (l : list A) (acc : B) (body : B -> A -> M St B)
  : M St B :=
  match l with
  | [] => ret acc
  | x :: l' => acc' <- body acc x ;; for_fold l' acc' body
  end.

(** The state a computation leaves when it returns; its exception
    otherwise. *)
Definition exec {St A} (m : M St A) (s : St) : result St :=
  match m s with
  | (Ok _, s') => Ok s'
  | (Raise e, _) => Raise e
  end.

(** ** Construction *)

(** *** Binary64

    The floats of [default_max_iter_fun]: finite numbers [m * 2^e] with a
    mantissa of 53 bits, the two zeros, the two infinities and NaN, as
    [spec_float] has them; every operation rounds its exact result to the
    nearest float, to the even mantissa on a tie. *)
Definition prec : Z := 53.
Definition emax : Z := 1024.

(** The conversion of an int to a float, as the product of an int by a
    float does it first: the nearest float, and [OverflowError] for an
    int too large to have one. *)
Definition float_of_int (z : Z) : result spec_float :=
  match binary_normalize prec emax z 0 false with
  | S754_infinity _ => Raise OverflowError
  | x => Ok x
  end.

(** The float that the literal [0.1] denotes: the float nearest to one
    tenth, [0x1.999999999999ap-4]. *)
Definition tenth : spec_float := S754_finite false 7205759403792794 (-56).

(** [x * y] on floats. *)
Definition float_mul : spec_float -> spec_float -> spec_float :=
  SFmul prec emax.

(** [int(x)] on a float: the integer part, toward zero; an infinity and
    NaN have none. *)
Definition int_of_float (x : spec_float) : result Z :=
  match x with
  | S754_zero _ => Ok 0%Z
  | S754_finite s m e => Ok (cond_Zopp s (Z.shiftl (Zpos m) e))
  | S754_infinity _ => Raise OverflowError
  | S754_nan => Raise ValueError
  end.

(** [default_max_iter_fun(self, nb_success)]: [int(nb_success * 0.1)],
    for a number of successes [nb_success] that is an int.  It does not
    read [self]. *)
Definition default_max_iter_fun (nb_success : Z) : result value :=
  rbind (float_of_int nb_success) (fun x =>
  rbind (int_of_float (float_mul x tenth)) (fun z => Ok (PInt z))).

(** The keyword arguments of [__init__] and their default values. *)
Module kw.

Record t : Type := mk {
  buffer_size : value;
  minibatch_size : value;
  step_for_final_epsilon : value;
  min_observation : value;
  final_epsilon : value;
  initial_epsilon : value;
  lr : value;
  lr_decay_steps : value;
  lr_decay_rate : value;
  num_frames : value;
  discount_factor : value;
  tau : value;
  update_freq : value;
  min_iter : value;
  max_iter : value;
  update_tensorboard_freq : value;
  save_model_each : value
}.

Definition defaults : t :=
  {| buffer_size := PInt 40000;
     minibatch_size := PInt 64;
     step_for_final_epsilon := PInt 100000;
     min_observation := PInt 5000;
     final_epsilon := PFloat (1 / (7 * 288));
     initial_epsilon := PFloat (4 / 10);
     lr := PFloat (1 / 10000);
     lr_decay_steps := PInt 10000;
     lr_decay_rate := PFloat (999 / 1000);
     num_frames := PInt 1;
     discount_factor := PFloat (99 / 100);
     tau := PFloat (1 / 10);
     update_freq := PInt 256;
     min_iter := PInt 50;
     max_iter := PInt 8064;
     update_tensorboard_freq := PInt 1000;
     save_model_each := PInt 10000 |}.

End kw.

(** The value [__init__] gives to [_exp_facto]; [from_dict] computes it
    again, by the same lines, after it has set the attributes. *)
Definition exp_facto_of (initial final : value) : result value :=
  if py_gt final (PInt 0) then
    rbind (py_truediv initial final) (fun q => Ok (np_log q))
  else Ok (PInt 1).

(** [TrainingParam.__init__]: the assignments of the body, in the order
    of the source. *)
Definition __init__ (a : kw.t) : result TrainingParam :=
  let buffer_size := kw.buffer_size a in
  let minibatch_size := kw.minibatch_size a in
  let min_observation := kw.min_observation a in
  let final_epsilon := py_float (kw.final_epsilon a) in
  let initial_epsilon := py_float (kw.initial_epsilon a) in
  let step_for_final_epsilon := py_float (kw.step_for_final_epsilon a) in
  let lr := kw.lr a in
  let lr_decay_steps := py_float (kw.lr_decay_steps a) in
  let lr_decay_rate := py_float (kw.lr_decay_rate a) in
  let last_step := PInt 0 in
  let num_frames := py_int (kw.num_frames a) in
  let discount_factor := py_float (kw.discount_factor a) in
  let tau := py_float (kw.tau a) in
  let update_freq := kw.update_freq a in
  let min_iter := kw.min_iter a in
  let max_iter := kw.max_iter a in
  rbind (exp_facto_of initial_epsilon final_epsilon) (fun exp_facto =>
  Ok {| buffer_size := buffer_size;
        minibatch_size := minibatch_size;
        min_observation := min_observation;
        final_epsilon := final_epsilon;
        initial_epsilon := initial_epsilon;
        step_for_final_epsilon := step_for_final_epsilon;
        lr := lr;
        lr_decay_steps := lr_decay_steps;
        lr_decay_rate := lr_decay_rate;
        last_step := last_step;
        num_frames := num_frames;
        discount_factor := discount_factor;
        tau := tau;
        update_freq := update_freq;
        min_iter := min_iter;
        max_iter := max_iter;
        _exp_facto := exp_facto;
        max_iter_fun := default_max_iter_fun;
        update_tensorboard_freq := kw.update_tensorboard_freq a;
        save_model_each := kw.save_model_each a |}).

(** ** Methods *)

(** [tell_step(self, current_step)] *)
Definition tell_step (current_step : value) : M TrainingParam unit :=
  modify (fun self => setattr self "last_step" current_step).

(** [get_next_epsilon(self, current_step)] *)
Definition get_next_epsilon (current_step : value) : M TrainingParam value :=
  modify (fun self => setattr self "last_step" current_step) ;;
  self <- get ;;
  if py_gt current_step (step_for_final_epsilon self) then
    ret (final_epsilon self)
  else
    q <- lift (py_truediv current_step (step_for_final_epsilon self)) ;;
    ret (py_mul (initial_epsilon self)
                (np_exp (py_mul (py_neg q) (_exp_facto self)))).

(** [do_train(self)] *)
Definition do_train : M TrainingParam bool :=
  self <- get ;;
  m <- lift (py_mod (last_step self) (update_freq self)) ;;
  ret (py_eq m (PInt 0)).

(** ** Dictionaries *)

(** A [dict] from strings to numbers, in insertion order. *)
Definition dict : Type := list (string * value).

(** [k in d] *)
Definition dict_contains (d : dict) (k : string) : bool :=
  match assoc k d with Some _ => true | None => false end.

(** [d[k]] *)
Definition dict_getitem (d : dict) (k : string) : result value :=
  match assoc k d with
  | Some v => Ok v
  | None => Raise (KeyError k)
  end.

(** [d[k] = v]: the value of an existing key is replaced in place, a new
    key goes to the end. *)
Fixpoint dict_setitem (d : dict) (k : string) (v : value) : dict :=
  match d with
  | [] => [(k, v)]
  | (k', v') :: d' =>
      if String.eqb k k' then (k, v) :: d' else (k', v') :: dict_setitem d' k v
  end.

(** [to_dict(self)] *)
Definition to_dict : M TrainingParam dict :=
  self <- get ;;
  res <- for_fold _int_attr ([] : dict) (fun res attr_nm =>
           v <- lift (getattr self attr_nm) ;;
           ret (dict_setitem res attr_nm (py_int v))) ;;
  res <- for_fold _float_attr res (fun res attr_nm =>
           v <- lift (getattr self attr_nm) ;;
           ret (dict_setitem res attr_nm (py_float v))) ;;
  ret res.

(** [TrainingParam.from_dict(tmp)] (a static method): a default instance,
    then the loops and the final test run on it. *)
Definition from_dict (tmp : dict) : result TrainingParam :=
  rbind (__init__ kw.defaults) (exec (
    for_each _int_attr (fun attr_nm =>
      if dict_contains tmp attr_nm then
        v <- lift (dict_getitem tmp attr_nm) ;;
        modify (fun res => setattr res attr_nm (py_int v))
      else ret tt) ;;
    for_each _float_attr (fun attr_nm =>
      if dict_contains tmp attr_nm then
        v <- lift (dict_getitem tmp attr_nm) ;;
        modify (fun res => setattr res attr_nm (py_float v))
      else ret tt) ;;
    res <- get ;;
    if py_gt (final_epsilon res) (PInt 0) then
      q <- lift (py_truediv (initial_epsilon res) (final_epsilon res)) ;;
      modify (fun res => setattr res "_exp_facto" (np_log q))
    else
      modify (fun res => setattr res "_exp_facto" (PInt 1)))).

(** ** The file system *)

Inductive node : Type :=
| Dir
| File (content : string).

(** A place in the tree: the names from the root down to it. *)
Definition place : Type := list string.

(** The state of the file system: what is at each place (the root, [[]],
    is a directory), the current directory, and the refusals of [open]
    that the tree does not show (permissions, quotas, limits on names, a
    NUL character in the path): [denied t path] is the exception, if
    any, of opening [path] for writing when the tree is [t]. *)
Record filesystem : Type := mkfilesystem {
  nodes : place -> option node;
  cwd : place;
  denied : (place -> option node) -> string -> option exn
}.

Definition starts_with_sep (s : string) : bool :=
  match s with
  | String c _ => Ascii.eqb c "/"%char
  | EmptyString => false
  end.

Fixpoint ends_with_sep (s : string) : bool :=
  match s with
  | EmptyString => false
  | String c EmptyString => Ascii.eqb c "/"%char
  | String _ s' => ends_with_sep s'
  end.

(** The pieces of a path between its separators. *)
Fixpoint split_path (s : string) : list string :=
  match s with
  | EmptyString => [EmptyString]
  | String c s' =>
      if Ascii.eqb c "/"%char then EmptyString :: split_path s'
      else
        match split_path s' with
        | x :: r => String c x :: r
        | [] => [String c EmptyString]
        end
  end.

(** The names of a path: a leading, a doubled or a trailing separator
    adds none. *)
Definition names (s : string) : list string :=
  filter (fun c => negb (String.eqb c "")) (split_path s).

(** What a path resolves to: a node at a place; a free place in a
    directory that exists; nothing, because a directory on the way is
    missing ([ENOENT]) or because a file stands where a directory is
    needed ([ENOTDIR]). *)
Inductive resolved : Type :=
| At (l : place) (n : node)
| Free (l : place)
| Missing
| Blocked.

(** The walk of the system along the names of a path, from the
    directory [cur].  There are no symbolic links. *)
Fixpoint walk (t : place -> option node) (cur : place) (l : list string)
  : resolved :=
  match l with
  | [] =>
      match t cur with
      | Some n => At cur n
      | None => Missing
      end
  | c :: rest =>
      if String.eqb c "." then walk t cur rest
      else if String.eqb c ".." then walk t (removelast cur) rest
      else
        match t (cur ++ [c])%list with
        | Some Dir => walk t (cur ++ [c])%list rest
        | Some (File x) =>
            match rest with
            | [] => At (cur ++ [c])%list (File x)
            | _ => Blocked
            end
        | None =>
            match rest with
            | [] => Free (cur ++ [c])%list
            | _ => Missing
            end
        end
  end.

(** An absolute path is walked from the root, a relative one from the
    current directory; the empty path names nothing. *)
Definition resolve (fs : filesystem) (path : string) : resolved :=
  if String.eqb path "" then Missing
  else walk (nodes fs) (if starts_with_sep path then [] else cwd fs)
            (names path).



(** [os.path.join(a, b)] of [posixpath]. *)
Definition os_path_join (a b : string) : string :=
  if starts_with_sep b then b
  else if orb (String.eqb a "") (ends_with_sep a) then a ++ b
  else a ++ "/" ++ b.







(** ** JSON text *)

Definition dq : string := String (ascii_of_nat 34) EmptyString.
Definition nl : string := String (ascii_of_nat 10) EmptyString.

Fixpoint insert_item (kv : string * value) (l : list (string * value))
  : list (string * value) :=
  match l with
  | [] => [kv]
  | kv' :: l' =>
      if String.leb (fst kv) (fst kv') then kv :: l
      else kv' :: insert_item kv l'
  end.

(** The items of a dictionary in the order of their keys, as
    [sort_keys=True] writes them. *)
Definition sort_keys (d : dict) : list (string * value) :=
  fold_right insert_item [] d.

Section Json.

(** [float.__repr__], the shortest decimal text that reads back as the
    same float, has no counterpart on real numbers: the text of a float
    is left to a function of the context. *)
Variable float_repr : R -> string.

Definition json_number (v : value) : string :=
  match v with
  | PInt z => NilZero.string_of_int (Z.to_int z)
  | PFloat r => float_repr r
  end.

(** One [key: value] item.  The keys written here are attribute names,
    which need no escape. *)
Definition json_item (kv : string * value) : string :=
  dq ++ fst kv ++ dq ++ ": " ++ json_number (snd kv).

(** [json.dumps(d, indent=4, sort_keys=True)] on a flat dictionary of
    numbers: one item per line, indented by four spaces, separated by a
    comma at the end of the line. *)
Definition json_dumps (d : dict) : string :=
  match d with
  | [] => "{}"
  | _ =>
      "{" ++ nl ++ "    "
      ++ String.concat ("," ++ nl ++ "    ") (map json_item (sort_keys d))
      ++ nl ++ "}"
  end.


End Json.

(** ** The error kinds of the specification *)



(** ** Predicates of the statements *)



(** Every attribute but [last_step] is the same in [self'] as in [self]. *)
Definition same_but_last_step (self self' : TrainingParam) : Prop :=
  buffer_size self' = buffer_size self /\
  minibatch_size self' = minibatch_size self /\
  min_observation self' = min_observation self /\
  final_epsilon self' = final_epsilon self /\
  initial_epsilon self' = initial_epsilon self /\
  step_for_final_epsilon self' = step_for_final_epsilon self /\
  lr self' = lr self /\
  lr_decay_steps self' = lr_decay_steps self /\
  lr_decay_rate self' = lr_decay_rate self /\
  num_frames self' = num_frames self /\
  discount_factor self' = discount_factor self /\
  tau self' = tau self /\
  update_freq self' = update_freq self /\
  min_iter self' = min_iter self /\
  max_iter self' = max_iter self /\
  _exp_facto self' = _exp_facto self /\
  max_iter_fun self' = max_iter_fun self /\
  update_tensorboard_freq self' = update_tensorboard_freq self /\
  save_model_each self' = save_model_each self.

(** The relation between [_exp_facto] and the two epsilons. *)
Definition exp_facto_inv (self : TrainingParam) : Prop :=
  ((to_R (final_epsilon self) > 0)%R ->
   _exp_facto self =
   PFloat (ln (to_R (initial_epsilon self) / to_R (final_epsilon self)))) /\
  (~ (to_R (final_epsilon self) > 0)%R -> _exp_facto self = PInt 1).




(** The instance [TrainingParam()] builds from the default arguments. *)
Definition default_instance : TrainingParam :=
  {| buffer_size := PInt 40000;
     minibatch_size := PInt 64;
     min_observation := PInt 5000;
     final_epsilon := PFloat (1 / (7 * 288));
     initial_epsilon := PFloat (4 / 10);
     step_for_final_epsilon := PFloat 100000;
     lr := PFloat (1 / 10000);
     lr_decay_steps := PFloat 10000;
     lr_decay_rate := PFloat (999 / 1000);
     last_step := PInt 0;
     num_frames := PInt 1;
     discount_factor := PFloat (99 / 100);
     tau := PFloat (1 / 10);
     update_freq := PInt 256;
     min_iter := PInt 50;
     max_iter := PInt 8064;
     _exp_facto := PFloat (ln (4 / 10 / (1 / (7 * 288))));
     max_iter_fun := default_max_iter_fun;
     update_tensorboard_freq := PInt 1000;
     save_model_each := PInt 10000 |}.

(** What one round of a loop of [from_dict] does to the instance: the
    attribute [attr_nm] is overwritten by the coerced entry of [tmp] when
    [tmp] has the key, and nothing happens otherwise. *)
Definition apply_override (tmp : dict) (coerce : value -> value)
  (res : TrainingParam) (attr_nm : string) : TrainingParam :=
  match assoc attr_nm tmp with
  | Some v => setattr res attr_nm (coerce v)
  | None => res
  end.

(** The instance after the two loops of [from_dict]. *)
Definition from_dict_loops (tmp : dict) : TrainingParam :=
  fold_left (apply_override tmp py_float) _float_attr
    (fold_left (apply_override tmp py_int) _int_attr default_instance).



(** A file system with a directory [out] and a file [notes.txt] in the
    root, which is the current directory, and no refusal. *)
Definition small_fs : filesystem :=
  {| nodes := fun l =>
       match l with
       | [] => Some Dir
       | [c] =>
           if String.eqb c "out" then Some Dir
           else if String.eqb c "notes.txt" then Some (File "")
           else None
       | _ => None
       end;
     cwd := [];
     denied := fun _ _ => None |}.



(** ** Saving *)


Definition saved_dict (self : TrainingParam) : dict :=
  match fst (to_dict self) with
  | Ok d => d
  | Raise _ => []
  end.


(** * Properties *)

(** ** Tests on reals and Python comparisons *)

Lemma Rgtb_true (x y : R) : (y < x)%R -> Rgtb x y = true.
Proof. intros H. unfold Rgtb. destruct (Rlt_dec y x); [reflexivity | contradiction]. Qed.

Lemma Rgtb_false (x y : R) : ~ (y < x)%R -> Rgtb x y = false.
Proof. intros H. unfold Rgtb. destruct (Rlt_dec y x); [contradiction | reflexivity]. Qed.

Lemma Reqb_true (x y : R) : x = y -> Reqb x y = true.
Proof. intros H. unfold Reqb. destruct (Req_dec_T x y); [reflexivity | contradiction]. Qed.

Lemma Reqb_false (x y : R) : x <> y -> Reqb x y = false.
Proof. intros H. unfold Reqb. destruct (Req_dec_T x y); [contradiction | reflexivity]. Qed.

Lemma py_gt_spec (a b : value) : py_gt a b = true <-> (to_R a > to_R b)%R.
Proof.
  destruct a as [x | x], b as [y | y]; cbn [py_gt to_R].
  - rewrite Z.gtb_ltb, Z.ltb_lt. split; intros H.
    + apply Rlt_gt, IZR_lt, H.
    + apply lt_IZR, H.
  - unfold Rgtb. destruct (Rlt_dec y (IZR x)); split; intros; (discriminate || auto).
  - unfold Rgtb. destruct (Rlt_dec (IZR y) x); split; intros; (discriminate || auto).
  - unfold Rgtb. destruct (Rlt_dec y x); split; intros; (discriminate || auto).
Qed.

Lemma py_gt_false (a b : value) : py_gt a b = false <-> ~ (to_R a > to_R b)%R.
Proof.
  rewrite <- py_gt_spec. destruct (py_gt a b); split; intros H;
    (discriminate || congruence || auto).
Qed.

Lemma py_eq_spec (a b : value) : py_eq a b = true <-> to_R a = to_R b.
Proof.
  destruct a as [x | x], b as [y | y]; cbn [py_eq to_R].
  - rewrite Z.eqb_eq. split; intros H; [now subst | now apply eq_IZR].
  - unfold Reqb. destruct (Req_dec_T (IZR x) y); split; intros; (discriminate || auto).
  - unfold Reqb. destruct (Req_dec_T x (IZR y)); split; intros; (discriminate || auto).
  - unfold Reqb. destruct (Req_dec_T x y); split; intros; (discriminate || auto).
Qed.

Lemma py_is_zero_spec (v : value) : py_is_zero v = true <-> to_R v = 0%R.
Proof. unfold py_is_zero. rewrite py_eq_spec. reflexivity. Qed.

Lemma py_is_zero_false (v : value) : py_is_zero v = false <-> to_R v <> 0%R.
Proof.
  rewrite <- py_is_zero_spec. destruct (py_is_zero v); split; intros H;
    (discriminate || congruence || auto).
Qed.

Lemma py_truediv_ok (a b : value) :
  to_R b <> 0%R -> py_truediv a b = Ok (PFloat (to_R a / to_R b)).
Proof.
  intros H. unfold py_truediv. apply py_is_zero_false in H. rewrite H. reflexivity.
Qed.



(** ** Construction always succeeds *)

Lemma exp_facto_of_total (i f : value) :
  exists v, exp_facto_of i f = Ok v /\
    ((to_R f > 0)%R -> v = PFloat (ln (to_R i / to_R f))) /\
    (~ (to_R f > 0)%R -> v = PInt 1).
Proof.
  unfold exp_facto_of. destruct (py_gt f (PInt 0)) eqn:E.
  - apply py_gt_spec in E. cbn [to_R] in E.
    rewrite py_truediv_ok by lra. cbn [rbind np_log to_R].
    eexists. split; [reflexivity | split; [reflexivity | intros H; contradiction]].
  - apply py_gt_false in E. cbn [to_R] in E.
    eexists. split; [reflexivity | split; [intros H; contradiction | reflexivity]].
Qed.


(** ** The two methods that move the cursor *)

Lemma get_next_epsilon_eq (current_step : value) (self : TrainingParam) :
  get_next_epsilon current_step self =
  (if py_gt current_step (step_for_final_epsilon self) then
     Ok (final_epsilon self)
   else
     rbind (py_truediv current_step (step_for_final_epsilon self)) (fun q =>
       Ok (py_mul (initial_epsilon self)
                  (np_exp (py_mul (py_neg q) (_exp_facto self))))),
   setattr self "last_step" current_step).
Proof.
  unfold get_next_epsilon, bind, modify, get, ret, lift. cbn.
  destruct (py_gt current_step (step_for_final_epsilon self)); [reflexivity |].
  destruct (py_truediv current_step (step_for_final_epsilon self)); reflexivity.
Qed.

Lemma setattr_last_step_frame (self : TrainingParam) (v : value) :
  same_but_last_step self (setattr self "last_step" v).
Proof. unfold same_but_last_step. cbn. repeat split. Qed.

Lemma cursor_frame_tell_step (self : TrainingParam) (current_step : value) :
  same_but_last_step self (snd (tell_step current_step self)).
Proof. apply setattr_last_step_frame. Qed.

Lemma cursor_frame_get_next_epsilon (self : TrainingParam) (current_step : value) :
  same_but_last_step self (snd (get_next_epsilon current_step self)).
Proof. rewrite get_next_epsilon_eq. apply setattr_last_step_frame. Qed.

(** C10.  [tell_step] and [get_next_epsilon] change [last_step] and nothing
    else: after either call, whether it returns or raises, every other
    attribute of the object, [max_iter_fun] included, is what it was. *)
Theorem cursor_methods_frame (self : TrainingParam) (current_step : value) :
  same_but_last_step self (snd (tell_step current_step self)) /\
  same_but_last_step self (snd (get_next_epsilon current_step self)).
Proof.
  split.
  - apply cursor_frame_tell_step.
  - apply cursor_frame_get_next_epsilon.
Qed.

Lemma exp_facto_of_pos (i f : value) :
  (to_R f > 0)%R -> exp_facto_of i f = Ok (PFloat (ln (to_R i / to_R f))).
Proof.
  intros H. destruct (exp_facto_of_total i f) as (v & Hv & Hpos & _).
  rewrite Hv, (Hpos H). reflexivity.
Qed.

Lemma init_defaults : __init__ kw.defaults = Ok default_instance.
Proof.
  unfold __init__. rewrite exp_facto_of_pos by (cbn; lra). reflexivity.
Qed.


Lemma get_next_epsilon_final (self : TrainingParam) (current_step : value) :
  (to_R current_step > to_R (step_for_final_epsilon self))%R ->
  fst (get_next_epsilon current_step self) = Ok (final_epsilon self).
Proof.
  intros H. rewrite get_next_epsilon_eq. cbn [fst].
  apply py_gt_spec in H. rewrite H. reflexivity.
Qed.

Lemma get_next_epsilon_decay (self : TrainingParam) (current_step : value) :
  ~ (to_R current_step > to_R (step_for_final_epsilon self))%R ->
  to_R (step_for_final_epsilon self) <> 0%R ->
  fst (get_next_epsilon current_step self) =
  Ok (PFloat (to_R (initial_epsilon self)
              * exp (- (to_R current_step / to_R (step_for_final_epsilon self))
                     * to_R (_exp_facto self)))).
Proof.
  intros H Hz. rewrite get_next_epsilon_eq. cbn [fst].
  apply py_gt_false in H. rewrite H.
  rewrite py_truediv_ok by exact Hz. cbn [rbind py_neg].
  destruct (initial_epsilon self), (_exp_facto self); reflexivity.
Qed.




(** ** [do_train] *)

Lemma do_train_eq (self : TrainingParam) :
  do_train self =
  (rbind (py_mod (last_step self) (update_freq self))
         (fun m => Ok (py_eq m (PInt 0))), self).
Proof.
  unfold do_train, bind, get, lift, ret.
  destruct (py_mod (last_step self) (update_freq self)); reflexivity.
Qed.




(** ** Integer parts of reals *)

Lemma Int_part_tenth (n : Z) : Int_part (IZR n * (1 / 10)) = (n / 10)%Z.
Proof.
  symmetry. apply Int_part_spec.
  pose proof (Z.div_mod n 10 ltac:(lia)) as Hdm.
  pose proof (Z.mod_pos_bound n 10 ltac:(lia)) as [Hlo Hhi].
  set (q := (n / 10)%Z) in *. set (m := (n mod 10)%Z) in *.
  assert (Hn : IZR n = (10 * IZR q + IZR m)%R).
  { rewrite Hdm, plus_IZR, mult_IZR. reflexivity. }
  apply IZR_le in Hlo. apply IZR_lt in Hhi. rewrite Hn. lra.
Qed.





(** ** Rounding in binary64 *)

Section Binary64.

Local Open Scope Z_scope.

Lemma digits2_pos_bounds (p : positive) :
  2 ^ (Zpos (digits2_pos p) - 1) <= Zpos p < 2 ^ Zpos (digits2_pos p).
Proof.
  induction p as [p IH | p IH |]; cbn [digits2_pos].
  - rewrite Pos2Z.inj_succ.
    replace (Z.succ (Zpos (digits2_pos p)) - 1) with (Z.succ (Zpos (digits2_pos p) - 1)) by lia.
    rewrite !Z.pow_succ_r by lia. lia.
  - rewrite Pos2Z.inj_succ.
    replace (Z.succ (Zpos (digits2_pos p)) - 1) with (Z.succ (Zpos (digits2_pos p) - 1)) by lia.
    rewrite !Z.pow_succ_r by lia. lia.
  - cbn. lia.
Qed.

Lemma digits2_pos_unique (p : positive) (d : Z) :
  2 ^ (d - 1) <= Zpos p < 2 ^ d -> Zpos (digits2_pos p) = d.
Proof.
  intros [Hlo Hhi].
  pose proof (digits2_pos_bounds p) as [Blo Bhi].
  set (e := Zpos (digits2_pos p)) in *.
  assert (He : 0 < e) by (subst e; lia).
  destruct (Z.lt_trichotomy e d) as [Hlt | [Heq | Hgt]]; [| exact Heq |].
  - assert (2 ^ e <= 2 ^ (d - 1)) by (apply Z.pow_le_mono_r; lia). lia.
  - assert (0 <= d).
    { destruct (Z.le_gt_cases 0 d); [assumption |].
      rewrite (Z.pow_neg_r 2 d) in Hhi by lia. lia. }
    assert (2 ^ d <= 2 ^ (e - 1)) by (apply Z.pow_le_mono_r; lia). lia.
Qed.

Lemma iter_pos_nat {A} (f : A -> A) (p : positive) (x : A) :
  iter_pos f p x = Nat.iter (Pos.to_nat p) f x.
Proof.
  revert x. induction p as [p IH | p IH |]; intros x; cbn [iter_pos].
  - rewrite !IH. rewrite Pos2Nat.inj_xI.
    replace (S (2 * Pos.to_nat p))%nat with (Pos.to_nat p + S (Pos.to_nat p))%nat by lia.
    rewrite Nat.iter_add. f_equal. rewrite Nat.iter_succ_r. reflexivity.
  - rewrite !IH. rewrite Pos2Nat.inj_xO.
    replace (2 * Pos.to_nat p)%nat with (Pos.to_nat p + Pos.to_nat p)%nat by lia.
    rewrite Nat.iter_add. reflexivity.
  - reflexivity.
Qed.

Lemma shr_1_nonneg (m : Z) (r s : bool) :
  0 <= m ->
  shr_1 (Build_shr_record m r s) = Build_shr_record (m / 2) (Z.odd m) (r || s).
Proof.
  intros Hm. unfold shr_1.
  destruct m as [| [p | p |] | p]; try lia; cbn [Z.odd].
  - reflexivity.
  - f_equal. rewrite Pos2Z.inj_xI.
    apply Z.div_unique with (r := 1); lia.
  - f_equal. rewrite Pos2Z.inj_xO.
    apply Z.div_unique with (r := 0); lia.
  - reflexivity.
Qed.

(** [k] one-bit shifts of [P]: the quotient by [2^k] and, as the round
    bit, the bit of [P] just below. *)
Lemma shr_iter (P : Z) (k : nat) :
  0 <= P ->
  exists s,
    Nat.iter (S k) shr_1 (Build_shr_record P false false)
    = Build_shr_record (P / 2 ^ Z.of_nat (S k)) (Z.testbit P (Z.of_nat k)) s.
Proof.
  intros HP. induction k as [| k IH].
  - exists false. cbn [Nat.iter]. rewrite shr_1_nonneg by exact HP.
    cbn [Z.of_nat]. rewrite Z.bit0_odd. reflexivity.
  - destruct IH as [s IH]. exists (Z.testbit P (Z.of_nat k) || s).
    rewrite Nat.iter_succ, IH.
    assert (Hq : 0 <= P / 2 ^ Z.of_nat (S k)) by (apply Z.div_pos; lia).
    rewrite shr_1_nonneg by exact Hq. f_equal.
    + rewrite Z.div_div by lia.
      f_equal. rewrite (Nat2Z.inj_succ (S k)), Z.pow_succ_r by lia. lia.
    + rewrite (Z.testbit_odd P (Z.of_nat (S k))), Z.shiftr_div_pow2 by lia.
      reflexivity.
Qed.

Lemma fexp_eq (e : Z) : -1074 <= e - 53 -> fexp prec emax e = e - 53.
Proof. unfold fexp, emin, prec, emax. lia. Qed.

Lemma round_nearest_even_bounds (m : Z) (r s : bool) :
  m <= round_nearest_even m (loc_of_shr_record (Build_shr_record m r s))
    <= m + Z.b2z r.
Proof.
  destruct r, s; cbn [loc_of_shr_record round_nearest_even Z.b2z];
    try destruct (Z.even m); lia.
Qed.

Lemma shr_fexp_shift (P : positive) (ex : Z) :
  let k := Zpos (digits2_pos P) - 53 in
  1 <= k -> -1074 <= ex + k ->
  exists s,
    shr_fexp prec emax (Zpos P) ex loc_Exact
    = (Build_shr_record (Zpos P / 2 ^ k) (Z.testbit (Zpos P) (k - 1)) s,
       ex + k).
Proof.
  intros k Hk He. unfold shr_fexp. cbn [Zdigits2 shr_record_of_loc].
  rewrite fexp_eq by (subst k; lia).
  replace (Zpos (digits2_pos P) + ex - 53 - ex) with k by (subst k; lia).
  destruct k as [| kp |] eqn:Ek; try lia.
  unfold shr. rewrite iter_pos_nat.
  destruct (Pos.to_nat kp) as [| n] eqn:En; [lia |].
  destruct (shr_iter (Zpos P) n ltac:(lia)) as [s Hs].
  exists s. rewrite Hs.
  replace (Z.of_nat (S n)) with (Zpos kp) by lia.
  replace (Z.of_nat n) with (Zpos kp - 1) by lia.
  reflexivity.
Qed.

Lemma shr_fexp_normal (m : positive) (e : Z) :
  2 ^ 52 <= Zpos m < 2 ^ 53 -> -1074 <= e ->
  shr_fexp prec emax (Zpos m) e loc_Exact
  = (Build_shr_record (Zpos m) false false, e).
Proof.
  intros Hm He. unfold shr_fexp. cbn [Zdigits2 shr_record_of_loc].
  rewrite (digits2_pos_unique m 53) by exact Hm.
  rewrite fexp_eq by lia.
  replace (53 + e - 53 - e) with 0 by lia. reflexivity.
Qed.

Lemma shr_fexp_carry (e : Z) :
  -1074 <= e ->
  shr_fexp prec emax (2 ^ 53) e loc_Exact
  = (Build_shr_record (2 ^ 52) false false, e + 1).
Proof.
  intros He. unfold shr_fexp.
  change (Zdigits2 (2 ^ 53)) with 54.
  rewrite fexp_eq by lia.
  replace (54 + e - 53 - e) with 1 by lia. reflexivity.
Qed.

(** Rounding to nearest even of [P * 2^ex], for a [P] of more than 53
    bits: what comes out is a 53-bit mantissa between the quotient of [P]
    by [2^k] and the next integer, the latter only when the bit of [P]
    just below is set. *)
Lemma binary_round_aux_shift (sx : bool) (P : positive) (ex : Z) :
  let k := Zpos (digits2_pos P) - 53 in
  1 <= k -> -1074 <= ex + k ->
  exists (m : positive) (e m2 : Z),
    binary_round_aux prec emax sx (Zpos P) ex loc_Exact
    = (if e <=? 971 then S754_finite sx m e else S754_infinity sx) /\
    Zpos P / 2 ^ k <= m2 <= Zpos P / 2 ^ k + Z.b2z (Z.testbit (Zpos P) (k - 1)) /\
    ex + k <= e <= ex + k + 1 /\
    m2 = Zpos m * 2 ^ (e - (ex + k)) /\
    2 ^ 52 <= Zpos m < 2 ^ 53.
Proof.
  intros k Hk He.
  destruct (shr_fexp_shift P ex Hk He) as [s Hs]. fold k in Hs.
  unfold binary_round_aux. rewrite Hs. cbn [shr_m].
  pose proof (round_nearest_even_bounds (Zpos P / 2 ^ k)
                (Z.testbit (Zpos P) (k - 1)) s) as Hr.
  set (m2 := round_nearest_even _ _) in *.
  pose proof (digits2_pos_bounds P) as [Blo Bhi].
  assert (Hd : Zpos (digits2_pos P) = k + 53) by (subst k; lia).
  rewrite Hd in Blo, Bhi.
  assert (Hq : 2 ^ 52 <= Zpos P / 2 ^ k < 2 ^ 53).
  { replace (k + 53 - 1) with (52 + k) in Blo by lia.
    replace (k + 53) with (53 + k) in Bhi by lia.
    rewrite Z.pow_add_r in Blo, Bhi by lia.
    assert (0 < 2 ^ k) by (apply Z.pow_pos_nonneg; lia).
    split.
    - apply Z.div_le_lower_bound; lia.
    - apply Z.div_lt_upper_bound; lia. }
  assert (Hb : Z.b2z (Z.testbit (Zpos P) (k - 1)) <= 1)
    by (destruct (Z.testbit _ _); cbn; lia).
  destruct (Z.eq_dec m2 (2 ^ 53)) as [Hc | Hc].
  - rewrite Hc, shr_fexp_carry by exact He. cbn [shr_m].
    change (2 ^ 52) with (Zpos (2 ^ 52)%positive).
    exists (2 ^ 52)%positive, (ex + k + 1), m2.
    split; [reflexivity |]. split; [exact Hr |]. split; [lia |].
    split; [| cbn; lia].
    replace (ex + k + 1 - (ex + k)) with 1 by lia. rewrite Hc. reflexivity.
  - destruct m2 as [| m |] eqn:Em; try lia.
    assert (Hm : 2 ^ 52 <= Zpos m < 2 ^ 53) by lia.
    rewrite shr_fexp_normal by (exact Hm || exact He). cbn [shr_m].
    exists m, (ex + k), (Zpos m).
    split; [reflexivity |]. split; [exact Hr |]. split; [lia |].
    split; [| exact Hm].
    replace (ex + k - (ex + k)) with 0 by lia. lia.
Qed.

Lemma binary_round_aux_normal (sx : bool) (m : positive) (e : Z) :
  2 ^ 52 <= Zpos m < 2 ^ 53 -> -1074 <= e <= 971 ->
  binary_round_aux prec emax sx (Zpos m) e loc_Exact = S754_finite sx m e.
Proof.
  intros Hm He. unfold binary_round_aux.
  rewrite shr_fexp_normal by (exact Hm || lia).
  cbn [shr_m loc_of_shr_record round_nearest_even].
  rewrite shr_fexp_normal by (exact Hm || lia). cbn [shr_m].
  replace (e <=? emax - prec) with true; [reflexivity |].
  symmetry. apply Z.leb_le. unfold emax, prec. lia.
Qed.

Lemma Pos_iter_xO (p n : positive) :
  Zpos (Pos.iter xO p n) = Zpos p * 2 ^ Zpos n.
Proof.
  induction n as [| n IH] using Pos.peano_ind.
  - cbn [Pos.iter]. lia.
  - rewrite Pos.iter_succ, Pos2Z.inj_xO, IH, Pos2Z.inj_succ, Z.pow_succ_r by lia.
    lia.
Qed.

(** An integer below [2^53] converts to a float exactly. *)
Lemma binary_normalize_exact (p : positive) :
  Zpos p < 2 ^ 53 ->
  exists (N : positive) (s : Z),
    binary_normalize prec emax (Zpos p) 0 false = S754_finite false N (- s) /\
    0 <= s <= 52 /\ Zpos N = Zpos p * 2 ^ s /\ 2 ^ 52 <= Zpos N < 2 ^ 53.
Proof.
  intros Hp. cbn [binary_normalize]. unfold binary_round.
  pose proof (digits2_pos_bounds p) as [Blo Bhi].
  set (d := Zpos (digits2_pos p)) in *.
  assert (Hd : 1 <= d <= 53).
  { split; [subst d; lia |].
    destruct (Z.le_gt_cases d 53) as [H | H]; [exact H |].
    assert (2 ^ 53 <= 2 ^ (d - 1)) by (apply Z.pow_le_mono_r; lia). lia. }
  rewrite fexp_eq by lia. unfold shl_align.
  replace (d + 0 - 53) with (d - 53) by lia. rewrite Z.sub_0_r.
  destruct (d - 53) as [| dd | dd] eqn:Edd; try lia.
  - exists p, 0.
    assert (Hd53 : d = 53) by lia. rewrite Hd53 in Blo, Bhi.
    rewrite binary_round_aux_normal by lia.
    split; [reflexivity |]. lia.
  - exists (Pos.iter xO p dd), (Zpos dd).
    assert (Hs : Zpos dd = 53 - d) by lia.
    assert (HN : Zpos (Pos.iter xO p dd) = Zpos p * 2 ^ Zpos dd)
      by apply Pos_iter_xO.
    assert (Hr : 2 ^ 52 <= Zpos (Pos.iter xO p dd) < 2 ^ 53).
    { rewrite HN, Hs.
      assert (E52 : 2 ^ 52 = 2 ^ (d - 1) * 2 ^ (53 - d))
        by (rewrite <- Z.pow_add_r by lia; f_equal; lia).
      assert (E53 : 2 ^ 53 = 2 ^ d * 2 ^ (53 - d))
        by (rewrite <- Z.pow_add_r by lia; f_equal; lia).
      assert (0 < 2 ^ (53 - d)) by (apply Z.pow_pos_nonneg; lia).
      rewrite E52, E53. split.
      - apply Z.mul_le_mono_nonneg_r; lia.
      - apply Z.mul_lt_mono_pos_r; lia. }
    rewrite binary_round_aux_normal by lia.
    split; [reflexivity |]. lia.
Qed.

Lemma testbit_true_ge (P k : Z) :
  0 <= P -> 1 <= k -> Z.testbit P (k - 1) = true ->
  2 ^ k * (P / 2 ^ k) + 2 ^ (k - 1) <= P.
Proof.
  intros HP Hk Hb.
  apply Z.testbit_true in Hb; [| lia].
  assert (Hpk : 2 ^ k = 2 ^ (k - 1) * 2).
  { replace k with (Z.succ (k - 1)) at 1 by lia.
    rewrite Z.pow_succ_r by lia. lia. }
  assert (0 < 2 ^ (k - 1)) by (apply Z.pow_pos_nonneg; lia).
  rewrite Hpk, <- Z.div_div by lia.
  set (a := P / 2 ^ (k - 1)) in *.
  pose proof (Z.div_mod a 2 ltac:(lia)) as Ha.
  pose proof (Z.mul_div_le P (2 ^ (k - 1)) ltac:(lia)) as Hle. fold a in Hle.
  nia.
Qed.

(** The integer part of the rounded product, from bounds on the exact
    product [P * 2^(-j-k)]. *)
Lemma rounded_quotient (P m2 k j q : Z) :
  0 <= P -> 1 <= k -> 0 <= j ->
  P / 2 ^ k <= m2 <= P / 2 ^ k + Z.b2z (Z.testbit P (k - 1)) ->
  q * 2 ^ (j + k) <= P ->
  P + 2 ^ (k - 1) < (q + 1) * 2 ^ (j + k) ->
  m2 / 2 ^ j = q.
Proof.
  intros HP Hk Hj Hm Hlo Hhi.
  assert (Hk0 : 0 < 2 ^ k) by (apply Z.pow_pos_nonneg; lia).
  assert (Hj0 : 0 < 2 ^ j) by (apply Z.pow_pos_nonneg; lia).
  assert (Hk1 : 0 < 2 ^ (k - 1)) by (apply Z.pow_pos_nonneg; lia).
  assert (Hpk : 2 ^ k = 2 ^ (k - 1) * 2).
  { replace k with (Z.succ (k - 1)) at 1 by lia.
    rewrite Z.pow_succ_r by lia. lia. }
  rewrite Z.pow_add_r in Hlo, Hhi by lia.
  assert (L : q * 2 ^ j <= P / 2 ^ k).
  { apply Z.div_le_lower_bound; [lia |]. lia. }
  assert (U : m2 < (q + 1) * 2 ^ j).
  { destruct (Z.testbit P (k - 1)) eqn:Eb; cbn [Z.b2z] in Hm.
    - pose proof (testbit_true_ge P k HP Hk Eb) as Hge.
      assert (2 ^ k * (P / 2 ^ k + 1) < 2 ^ k * ((q + 1) * 2 ^ j)) by lia.
      assert (P / 2 ^ k + 1 < (q + 1) * 2 ^ j)
        by (apply (Z.mul_lt_mono_pos_l (2 ^ k)); lia).
      lia.
    - assert (P / 2 ^ k < (q + 1) * 2 ^ j)
        by (apply Z.div_lt_upper_bound; lia).
      lia. }
  symmetry. apply Z.div_unique with (r := m2 - q * 2 ^ j); lia.
Qed.

Lemma default_max_iter_fun_pos (p : positive) (q : Z) :
  Zpos p < 2 ^ 53 ->
  q * 2 ^ 56 <= Zpos p * 7205759403792794 ->
  (forall s k, 0 <= s <= 52 -> 52 <= k <= 53 ->
     2 ^ 52 <= Zpos p * 2 ^ s < 2 ^ 53 ->
     2 ^ (k + 52) <= Zpos p * 2 ^ s * 7205759403792794 < 2 ^ (k + 53) ->
     Zpos p * 2 ^ s * 7205759403792794 + 2 ^ (k - 1) < (q + 1) * 2 ^ 56 * 2 ^ s) ->
  default_max_iter_fun (Zpos p) = Ok (PInt q).
Proof.
  intros Hp Hlo Hup.
  destruct (binary_normalize_exact p Hp) as (N & s & Hx & Hs & HN & HNr).
  unfold default_max_iter_fun, float_of_int. rewrite Hx. cbn [rbind].
  unfold float_mul, tenth. cbn [SFmul xorb].
  set (P := (N * 7205759403792794)%positive).
  assert (HP : Zpos P = Zpos p * 2 ^ s * 7205759403792794)
    by (subst P; rewrite Pos2Z.inj_mul, HN; reflexivity).
  pose proof (digits2_pos_bounds P) as [Dlo Dhi].
  assert (HPr : 2 ^ 104 <= Zpos P < 2 ^ 106).
  { subst P. rewrite Pos2Z.inj_mul. lia. }
  assert (Hk : 52 <= Zpos (digits2_pos P) - 53 <= 53).
  { set (d := Zpos (digits2_pos P)) in *.
    assert (0 < d) by (subst d; lia). split.
    - destruct (Z.le_gt_cases 105 d) as [H' | H']; [lia |].
      assert (2 ^ d <= 2 ^ 104) by (apply Z.pow_le_mono_r; lia). lia.
    - destruct (Z.le_gt_cases d 106) as [H' | H']; [lia |].
      assert (2 ^ 106 <= 2 ^ (d - 1)) by (apply Z.pow_le_mono_r; lia). lia. }
  destruct (binary_round_aux_shift false P (- s + -56) ltac:(lia) ltac:(lia))
    as (m & e & m2 & Hr & Hm2 & He & Hme & Hm).
  set (k := Zpos (digits2_pos P) - 53) in *.
  replace (Zpos (digits2_pos P) - 1) with (k + 52) in Dlo by (subst k; lia).
  replace (Zpos (digits2_pos P)) with (k + 53) in Dhi by (subst k; lia).
  rewrite Hr.
  replace (e <=? 971) with true by (symmetry; apply Z.leb_le; lia).
  cbn [int_of_float rbind cond_Zopp]. do 2 f_equal.
  specialize (Hup s k Hs Hk ltac:(lia) ltac:(lia)).
  assert (Hq : m2 / 2 ^ (s + 56 - k) = q).
  { apply (rounded_quotient (Zpos P) m2 k (s + 56 - k) q); try lia.
    - replace (s + 56 - k + k) with (56 + s) by lia.
      rewrite Z.pow_add_r by lia. rewrite HP. nia.
    - replace (s + 56 - k + k) with (56 + s) by lia.
      rewrite Z.pow_add_r by lia. rewrite HP. lia. }
  rewrite <- Hq, Hme.
  rewrite <- (Z.shiftr_opp_r (Zpos m) e), Z.shiftr_div_pow2 by lia.
  assert (Hee : e = - s + -56 + k \/ e = - s + -56 + k + 1) by lia.
  destruct Hee as [Ee | Ee]; rewrite Ee.
  - replace (- s + -56 + k - (- s + -56 + k)) with 0 by lia.
    rewrite Z.pow_0_r, Z.mul_1_r. f_equal. f_equal. lia.
  - replace (- s + -56 + k + 1 - (- s + -56 + k)) with 1 by lia.
    replace (s + 56 - k) with (Z.succ (- (- s + -56 + k + 1))) by lia.
    rewrite Z.pow_succ_r by lia. rewrite Z.pow_1_r.
    rewrite (Z.mul_comm (Zpos m) 2).
    rewrite Z.div_mul_cancel_l; [reflexivity | | lia].
    apply Z.pow_nonzero; lia.
Qed.

Lemma default_max_iter_fun_tenth (n : Z) :
  0 <= n < 6755399441055749 ->
  default_max_iter_fun n = Ok (PInt (n / 10)).
Proof.
  intros Hn. destruct n as [| p |]; [reflexivity | | lia].
  pose proof (Z.div_mod (Zpos p) 10 ltac:(lia)) as Hdm.
  pose proof (Z.mod_pos_bound (Zpos p) 10 ltac:(lia)) as Hr.
  set (q := Zpos p / 10) in *. set (r := Zpos p mod 10) in *.
  apply default_max_iter_fun_pos.
  - lia.
  - lia.
  - intros s k Hs Hk HN HP.
    assert (Ha : 0 < 2 ^ s) by (apply Z.pow_pos_nonneg; lia).
    set (a := 2 ^ s) in *.
    assert (Hk' : k = 52 \/ k = 53) by lia.
    destruct (Z.lt_ge_cases (Zpos p) 5629499534213120) as [Hlt | Hge].
    + assert (Hd : 0 < a * (2 ^ 53 * ((q + 1) * 2 ^ 56 - Zpos p * 7205759403792794)
                          - Zpos p * 7205759403792794)).
      { apply Z.mul_pos_pos; [exact Ha | lia]. }
      destruct Hk' as [-> | ->]; cbn [Z.add Z.sub Z.opp Z.pos_sub Pos.add Pos.succ] in HP |- *; lia.
    + assert (a = 1) by nia.
      destruct Hk' as [-> | ->]; cbn [Z.add Z.sub Z.opp Z.pos_sub Pos.add Pos.succ] in HP |- *; lia.
Qed.

(** The sign goes through the rounding untouched. *)
Lemma binary_round_aux_opp (sx : bool) (mx ex : Z) (lx : location) :
  binary_round_aux prec emax (negb sx) mx ex lx
  = SFopp (binary_round_aux prec emax sx mx ex lx).
Proof.
  unfold binary_round_aux.
  destruct (shr_fexp prec emax mx ex lx) as [mrs' e'].
  destruct (shr_fexp prec emax _ e' loc_Exact) as [mrs'' e''].
  destruct (shr_m mrs'') as [| m | m]; [reflexivity | | reflexivity].
  destruct (e'' <=? emax - prec); reflexivity.
Qed.

Lemma float_mul_opp (x : spec_float) :
  float_mul (SFopp x) tenth = SFopp (float_mul x tenth).
Proof.
  destruct x as [s | s | | s m e];
    [destruct s; reflexivity | destruct s; reflexivity | reflexivity |].
  unfold float_mul, tenth. cbn [SFopp SFmul].
  rewrite !xorb_false_r. apply binary_round_aux_opp.
Qed.

Lemma int_of_float_opp (x : spec_float) :
  int_of_float (SFopp x) = rbind (int_of_float x) (fun z => Ok (- z)).
Proof.
  destruct x as [s | s | | s m e]; try reflexivity.
  cbn [SFopp int_of_float rbind]. f_equal.
  destruct s; cbn [negb cond_Zopp]; lia.
Qed.

Lemma float_of_int_opp (p : positive) :
  float_of_int (Zneg p)
  = rbind (float_of_int (Zpos p)) (fun x => Ok (SFopp x)).
Proof.
  unfold float_of_int. cbn [binary_normalize]. unfold binary_round.
  destruct (shl_align p 0 _) as [mz ez].
  change true with (negb false). rewrite binary_round_aux_opp.
  destruct (binary_round_aux prec emax false (Zpos mz) ez loc_Exact);
    reflexivity.
Qed.

(** [default_max_iter_fun] is odd: the conversion, the product and the
    integer part all treat the sign apart. *)
Lemma default_max_iter_fun_odd (n : Z) :
  default_max_iter_fun (- n)
  = rbind (default_max_iter_fun n) (fun v => Ok (py_neg v)).
Proof.
  assert (H : forall p,
            default_max_iter_fun (Zneg p)
            = rbind (default_max_iter_fun (Zpos p)) (fun v => Ok (py_neg v))).
  { intros p. unfold default_max_iter_fun. rewrite float_of_int_opp.
    destruct (float_of_int (Zpos p)) as [x | e]; [| reflexivity].
    cbn [rbind]. rewrite float_mul_opp, int_of_float_opp.
    destruct (int_of_float (float_mul x tenth)); reflexivity. }
  destruct n as [| p | p]; cbn [Z.opp].
  - reflexivity.
  - apply H.
  - rewrite H. destruct (default_max_iter_fun (Zpos p)) as [[z | r] | e];
      cbn [rbind py_neg]; [| | reflexivity].
    + rewrite Z.opp_involutive. reflexivity.
    + rewrite Ropp_involutive. reflexivity.
Qed.

(** An int of more than 1024 bits has no float. *)
Lemma float_of_int_overflow (n : Z) :
  2 ^ 1024 <= n -> float_of_int n = Raise OverflowError.
Proof.
  intros Hn.
  assert (H0 : 0 < 2 ^ 1024) by (apply Z.pow_pos_nonneg; lia).
  destruct n as [| p |]; try lia.
  unfold float_of_int. cbn [binary_normalize]. unfold binary_round.
  pose proof (digits2_pos_bounds p) as [Blo Bhi].
  set (d := Zpos (digits2_pos p)) in *.
  assert (Hd : 1025 <= d).
  { destruct (Z.le_gt_cases 1025 d) as [H | H]; [exact H |].
    assert (2 ^ d <= 2 ^ 1024) by (apply Z.pow_le_mono_r; lia). lia. }
  rewrite fexp_eq by lia. unfold shl_align.
  destruct (d + 0 - 53 - 0) as [| k | k] eqn:Ek; try lia.
  destruct (binary_round_aux_shift false p 0) as (m & e & m2 & Hr & _ & He & _).
  - fold d. lia.
  - fold d. lia.
  - fold d in He. rewrite Hr.
    replace (e <=? 971) with false by (symmetry; apply Z.leb_gt; lia).
    reflexivity.
Qed.

End Binary64.

(** ** [default_max_iter_fun] *)

(** C7, at an input where it fails.  [int] truncates toward zero:
    [default_max_iter_fun(-5)] is [int(-0.5)], that is [0], while
    [floor(-5 * 0.1)] is [-1]. *)
Lemma default_max_iter_fun_negative :
  default_max_iter_fun (-5) = Ok (PInt 0) /\
  Int_part (IZR (-5) * (1 / 10)) = (-1)%Z /\
  default_max_iter_fun (-5)
  <> Ok (PInt (Int_part (IZR (-5) * (1 / 10)))).
Proof.
  assert (H : default_max_iter_fun (-5) = Ok (PInt 0))
    by (vm_compute; reflexivity).
  split; [exact H |]. rewrite H, Int_part_tenth.
  split; [reflexivity | discriminate].
Qed.

(** C7, amended.  For every integer [success_count] from [0] up to, and
    not including, [6755399441055749],
    [default_max_iter_fun(success_count)] returns
    [floor(success_count * 0.1)], the quotient of [success_count] by ten;
    in particular it is [10] at [100] and [0] at [5].  The bound is the
    first count at which the float product rounds up to the next whole
    number: there the result is one more than the quotient. *)
Theorem default_max_iter_fun_floor :
  (forall n : Z, (0 <= n < 6755399441055749)%Z ->
     default_max_iter_fun n = Ok (PInt (Int_part (IZR n * (1 / 10)))) /\
     Int_part (IZR n * (1 / 10)) = (n / 10)%Z) /\
  default_max_iter_fun 100 = Ok (PInt 10) /\
  default_max_iter_fun 5 = Ok (PInt 0) /\
  default_max_iter_fun 6755399441055749
  = Ok (PInt (6755399441055749 / 10 + 1)).
Proof.
  split; [| split; [| split]].
  - intros n Hn. rewrite Int_part_tenth.
    split; [apply default_max_iter_fun_tenth, Hn | reflexivity].
  - vm_compute. reflexivity.
  - vm_compute. reflexivity.
  - vm_compute. reflexivity.
Qed.

Lemma default_max_iter_fun_floor_witness :
  default_max_iter_fun 42 = Ok (PInt (Int_part (IZR 42 * (1 / 10)))) /\
  Int_part (IZR 42 * (1 / 10)) = (42 / 10)%Z.
Proof.
  apply (proj1 default_max_iter_fun_floor 42%Z). lia.
Defined.

(** ** [to_dict] and [from_dict], unfolded *)

Lemma to_dict_eq (self : TrainingParam) :
  to_dict self =
  (Ok [("buffer_size", py_int (buffer_size self));
       ("minibatch_size", py_int (minibatch_size self));
       ("step_for_final_epsilon", py_int (step_for_final_epsilon self));
       ("min_observation", py_int (min_observation self));
       ("last_step", py_int (last_step self));
       ("num_frames", py_int (num_frames self));
       ("update_freq", py_int (update_freq self));
       ("min_iter", py_int (min_iter self));
       ("max_iter", py_int (max_iter self));
       ("update_tensorboard_freq", py_int (update_tensorboard_freq self));
       ("save_model_each", py_int (save_model_each self));
       ("final_epsilon", py_float (final_epsilon self));
       ("initial_epsilon", py_float (initial_epsilon self));
       ("lr", py_float (lr self));
       ("lr_decay_steps", py_float (lr_decay_steps self));
       ("lr_decay_rate", py_float (lr_decay_rate self));
       ("discount_factor", py_float (discount_factor self));
       ("tau", py_float (tau self))], self).
Proof. reflexivity. Qed.

Lemma for_each_override (tmp : dict) (coerce : value -> value)
  (l : list string) (res : TrainingParam) :
  for_each l (fun attr_nm =>
    if dict_contains tmp attr_nm then
      v <- lift (dict_getitem tmp attr_nm) ;;
      modify (fun res => setattr res attr_nm (coerce v))
    else ret tt) res
  = (Ok tt, fold_left (apply_override tmp coerce) l res).
Proof.
  revert res. induction l as [| nm l IH]; intros res; [reflexivity |].
  cbn [for_each fold_left]. unfold bind at 1.
  unfold dict_contains, dict_getitem, apply_override at 2.
  destruct (assoc nm tmp) as [v |]; cbn; apply IH.
Qed.

Lemma from_dict_eq (tmp : dict) :
  from_dict tmp =
  rbind (exp_facto_of (initial_epsilon (from_dict_loops tmp))
                      (final_epsilon (from_dict_loops tmp)))
        (fun f => Ok (setattr (from_dict_loops tmp) "_exp_facto" f)).
Proof.
  unfold from_dict. rewrite init_defaults. cbn [rbind].
  unfold exec, bind at 1. rewrite for_each_override.
  unfold bind at 1. rewrite for_each_override.
  fold (from_dict_loops tmp). unfold bind, get, exp_facto_of.
  destruct (py_gt (final_epsilon (from_dict_loops tmp)) (PInt 0)); [| reflexivity].
  unfold lift.
  destruct (py_truediv (initial_epsilon (from_dict_loops tmp))
                       (final_epsilon (from_dict_loops tmp))); reflexivity.
Qed.







(** ** Construction *)



(** ** The invariant of [_exp_facto] *)







(** ** Round trip through a dictionary *)







(** ** The decay schedule, in exact arithmetic *)

Lemma exp_le (x y : R) : (x <= y)%R -> (exp x <= exp y)%R.
Proof.
  intros [H | ->]; [left; apply exp_increasing, H | right; reflexivity].
Qed.

Lemma default_instance_inv : exp_facto_inv default_instance.
Proof. split; intros H; [reflexivity | exfalso; apply H; cbn; lra]. Qed.

(** C4.  On an instance that satisfies the relation of [_exp_facto], with
    [initial_epsilon > final_epsilon > 0] and
    [step_for_final_epsilon > 0]: [get_next_epsilon] returns
    [initial_epsilon] at step [0], [final_epsilon] at step
    [step_for_final_epsilon], and between the two a larger step never
    gets a larger epsilon. *)
Theorem epsilon_schedule (self : TrainingParam) :
  exp_facto_inv self ->
  (to_R (initial_epsilon self) > to_R (final_epsilon self))%R ->
  (to_R (final_epsilon self) > 0)%R ->
  (to_R (step_for_final_epsilon self) > 0)%R ->
  (forall c0, to_R c0 = 0%R ->
     exists v, fst (get_next_epsilon c0 self) = Ok v /\
               to_R v = to_R (initial_epsilon self)) /\
  (forall c, to_R c = to_R (step_for_final_epsilon self) ->
     exists v, fst (get_next_epsilon c self) = Ok v /\
               to_R v = to_R (final_epsilon self)) /\
  (forall c1 c2,
     (0 <= to_R c1)%R -> (to_R c1 <= to_R c2)%R ->
     (to_R c2 <= to_R (step_for_final_epsilon self))%R ->
     exists v1 v2,
       fst (get_next_epsilon c1 self) = Ok v1 /\
       fst (get_next_epsilon c2 self) = Ok v2 /\
       (to_R v2 <= to_R v1)%R).
Proof.
  intros [Hinv _] Hif Hf Hs. specialize (Hinv Hf).
  set (i := to_R (initial_epsilon self)) in *.
  set (f := to_R (final_epsilon self)) in *.
  set (s := to_R (step_for_final_epsilon self)) in *.
  assert (Hq : (1 < i / f)%R).
  { apply Rmult_lt_reg_r with f; [lra |]. field_simplify; lra. }
  assert (Hk : (0 < ln (i / f))%R).
  { rewrite <- ln_1. apply ln_increasing; lra. }
  split; [| split].
  - intros c0 Hc0. eexists. split.
    + apply get_next_epsilon_decay; fold s; lra.
    + cbn [to_R]. fold i s. rewrite Hc0.
      replace (- (0 / s) * to_R (_exp_facto self))%R with 0%R
        by (unfold Rdiv; ring).
      rewrite exp_0. ring.
  - intros c Hc. eexists. split.
    + apply get_next_epsilon_decay; fold s; lra.
    + cbn [to_R]. fold i s. rewrite Hc, Hinv. cbn [to_R].
      replace (- (s / s) * ln (i / f))%R with (- ln (i / f))%R by (field; lra).
      rewrite exp_Ropp, exp_ln by lra. field. lra.
  - intros c1 c2 H0 H12 H2s. eexists. eexists. split; [| split].
    + apply get_next_epsilon_decay; fold s; lra.
    + apply get_next_epsilon_decay; fold s; lra.
    + cbn [to_R]. fold i s. rewrite Hinv. cbn [to_R].
      apply Rmult_le_compat_l; [lra |]. apply exp_le.
      assert (Hdiv : (to_R c1 / s <= to_R c2 / s)%R).
      { unfold Rdiv. apply Rmult_le_compat_r; [| exact H12].
        left. apply Rinv_0_lt_compat, Hs. }
      nra.
Qed.

Lemma epsilon_schedule_witness :
  exists v, fst (get_next_epsilon (PInt 0) default_instance) = Ok v /\
            to_R v = (4 / 10)%R.
Proof.
  apply (proj1 (epsilon_schedule default_instance default_instance_inv
                  ltac:(cbn; lra) ltac:(cbn; lra) ltac:(cbn; lra))).
  reflexivity.
Defined.

(** ** Saving *)







(** ** Paths *)
















(** ** Writing a file *)








(** ** [save_as_json] *)




(** ** The model on the examples of the specification *)

Example from_dict_empty : from_dict [] = Ok default_instance.
Proof. rewrite from_dict_eq. cbn. rewrite exp_facto_of_pos by (cbn; lra). reflexivity. Qed.

Example from_dict_unknown_key :
  from_dict [("unknown_field", PInt 5)] = Ok default_instance.
Proof. rewrite from_dict_eq. cbn. rewrite exp_facto_of_pos by (cbn; lra). reflexivity. Qed.

Example do_train_512 :
  fst (do_train (setattr default_instance "last_step" (PInt 512))) = Ok true.
Proof. rewrite do_train_eq. reflexivity. Qed.

Example do_train_300 :
  fst (do_train (setattr default_instance "last_step" (PInt 300))) = Ok false.
Proof. rewrite do_train_eq. reflexivity. Qed.

Example sort_keys_to_dict :
  map fst (sort_keys
    match fst (to_dict default_instance) with Ok d => d | Raise _ => [] end)
  = ["buffer_size"; "discount_factor"; "final_epsilon"; "initial_epsilon";
     "last_step"; "lr"; "lr_decay_rate"; "lr_decay_steps"; "max_iter";
     "min_iter"; "min_observation"; "minibatch_size"; "num_frames";
     "save_model_each"; "step_for_final_epsilon"; "tau";
     "update_freq"; "update_tensorboard_freq"].
Proof. reflexivity. Qed.

Example json_dumps_two_items :
  json_dumps (fun _ => "0.5") [("tau", PFloat (1 / 2)); ("max_iter", PInt 8064)]
  = "{" ++ nl ++ "    " ++ dq ++ "max_iter" ++ dq ++ ": 8064," ++ nl
    ++ "    " ++ dq ++ "tau" ++ dq ++ ": 0.5" ++ nl ++ "}".
Proof. reflexivity. Qed.

(** The float of the literal [0.1] is the quotient of the floats [1.0]
    and [10.0], rounded: the float nearest to one tenth. *)
Example tenth_nearest :
  SFdiv prec emax (binary_normalize prec emax 1 0 false)
                  (binary_normalize prec emax 10 0 false)
  = tenth.
Proof. vm_compute. reflexivity. Qed.

Example default_max_iter_fun_examples :
  default_max_iter_fun 0 = Ok (PInt 0) /\
  default_max_iter_fun 9 = Ok (PInt 0) /\
  default_max_iter_fun 10 = Ok (PInt 1) /\
  default_max_iter_fun 8064 = Ok (PInt 806) /\
  default_max_iter_fun (-15) = Ok (PInt (-1)) /\
  default_max_iter_fun (10 ^ 400) = Raise OverflowError.
Proof. repeat split; vm_compute; reflexivity. Qed.

Example resolve_examples :
  resolve small_fs "out" = At ["out"] Dir /\
  resolve small_fs "/out/" = At ["out"] Dir /\
  resolve small_fs "out/../notes.txt" = At ["notes.txt"] (File "") /\
  resolve small_fs "out/x.json" = Free ["out"; "x.json"] /\
  resolve small_fs "out/nosuch/x.json" = Missing /\
  resolve small_fs "notes.txt/x.json" = Blocked /\
  resolve small_fs "" = Missing.
Proof. repeat split; reflexivity. Qed.

Example os_path_join_examples :
  os_path_join "out" "training_parameters.json"
  = "out/training_parameters.json" /\
  os_path_join "out/" "a.json" = "out/a.json" /\
  os_path_join "out" "/tmp/a.json" = "/tmp/a.json" /\
  os_path_join "out" "" = "out/".
Proof. repeat split; reflexivity. Qed.

(** * Further properties of the methods *)

(** ** [do_train] on integers *)

(** X1.  With an integer [last_step] and an integer [update_freq] other
    than zero, [do_train] returns [True] exactly when [update_freq]
    divides [last_step], negative numbers included, and leaves the object
    as it was. *)
Theorem do_train_divides (self : TrainingParam) (n u : Z) :
  last_step self = PInt n ->
  update_freq self = PInt u ->
  u <> 0%Z ->
  do_train self = (Ok (n mod u =? 0)%Z, self) /\
  ((n mod u =? 0)%Z = true <-> (u | n)%Z).
Proof.
  intros Hn Hu Hu0. split.
  - rewrite do_train_eq, Hn, Hu. cbn [py_mod].
    apply Z.eqb_neq in Hu0. rewrite Hu0. reflexivity.
  - rewrite Z.eqb_eq. apply Z.mod_divide, Hu0.
Qed.

Lemma do_train_divides_witness :
  do_train (setattr default_instance "last_step" (PInt 512))
  = (Ok true, setattr default_instance "last_step" (PInt 512)).
Proof.
  apply (do_train_divides (setattr default_instance "last_step" (PInt 512))
           512 256 eq_refl eq_refl).
  discriminate.
Defined.

Lemma get_next_epsilon_state (self : TrainingParam) (current_step : value) :
  snd (get_next_epsilon current_step self)
  = setattr self "last_step" current_step.
Proof. rewrite get_next_epsilon_eq. reflexivity. Qed.

(** X2.  [get_next_epsilon] moves the cursor as [tell_step] does: the two
    calls leave the same object, also when [get_next_epsilon] raises.
    After either of them at an integer step [n], on an instance whose
    [update_freq] is an integer [u] other than zero, [do_train] is [True]
    exactly when [n mod u] is [0]. *)
Theorem cursor_then_do_train (self : TrainingParam) (n u : Z) :
  update_freq self = PInt u ->
  u <> 0%Z ->
  snd (get_next_epsilon (PInt n) self) = snd (tell_step (PInt n) self) /\
  fst (do_train (snd (tell_step (PInt n) self))) = Ok (n mod u =? 0)%Z /\
  fst (do_train (snd (get_next_epsilon (PInt n) self))) = Ok (n mod u =? 0)%Z.
Proof.
  intros Hu Hu0. rewrite get_next_epsilon_state.
  assert (H : fst (do_train (setattr self "last_step" (PInt n)))
              = Ok (n mod u =? 0)%Z).
  { rewrite do_train_eq.
    cbn [fst setattr last_step update_freq String.eqb Ascii.eqb Bool.eqb].
    rewrite Hu. cbn [py_mod]. apply Z.eqb_neq in Hu0. rewrite Hu0. reflexivity. }
  split; [reflexivity | split; exact H].
Qed.

Lemma cursor_then_do_train_witness :
  fst (do_train (snd (tell_step (PInt 300) default_instance))) = Ok false.
Proof.
  apply (proj1 (proj2 (cursor_then_do_train default_instance 300 256 eq_refl
                         ltac:(discriminate)))).
Defined.

(** ** The schedule *)

(** X3.  The epsilon returned does not depend on the cursor: two objects
    that differ in [last_step] only get the same result at every step;
    and a second call at the same step returns what the first returned
    and leaves the object the first left. *)
Theorem get_next_epsilon_ignores_cursor :
  (forall self self' current_step,
     same_but_last_step self self' ->
     fst (get_next_epsilon current_step self')
     = fst (get_next_epsilon current_step self)) /\
  (forall self current_step,
     get_next_epsilon current_step (snd (get_next_epsilon current_step self))
     = get_next_epsilon current_step self).
Proof.
  split.
  - intros self self' c H. unfold same_but_last_step in H.
    destruct H as (_ & _ & _ & Hf & Hi & Hs & _ & _ & _ & _ & _ & _ & _ & _ & _
                   & He & _).
    rewrite !get_next_epsilon_eq. cbn [fst]. rewrite Hf, Hi, Hs, He. reflexivity.
  - intros self c. rewrite get_next_epsilon_state.
    rewrite !get_next_epsilon_eq. reflexivity.
Qed.

Lemma get_next_epsilon_ignores_cursor_witness :
  fst (get_next_epsilon (PInt 3) (setattr default_instance "last_step" (PInt 9)))
  = fst (get_next_epsilon (PInt 3) default_instance).
Proof.
  apply (proj1 get_next_epsilon_ignores_cursor default_instance
           (setattr default_instance "last_step" (PInt 9)) (PInt 3)).
  unfold same_but_last_step. cbn. repeat split.
Defined.

(** The factor [exp(-(c / s) * k)] of the decay, between [exp(-k)] and [1]
    when [c / s] is between [0] and [1] and [k] is not negative. *)
Lemma decay_factor_bounds (c s k : R) :
  (0 < s)%R -> (0 <= c)%R -> (c <= s)%R -> (0 <= k)%R ->
  (exp (- k) <= exp (- (c / s) * k) <= 1)%R.
Proof.
  intros Hs Hc Hcs Hk.
  assert (H0 : (0 <= c / s)%R).
  { unfold Rdiv. apply Rmult_le_pos; [exact Hc |].
    left. apply Rinv_0_lt_compat, Hs. }
  assert (H1 : (c / s <= 1)%R).
  { apply Rmult_le_reg_r with s; [exact Hs |].
    unfold Rdiv. rewrite Rmult_assoc, Rinv_l by lra. lra. }
  split.
  - apply exp_le. nra.
  - rewrite <- exp_0. apply exp_le. nra.
Qed.

Lemma exp_facto_positive (i f : R) :
  (f > 0)%R -> (i > f)%R -> (0 < ln (i / f))%R /\ (exp (- ln (i / f)) = f / i)%R.
Proof.
  intros Hf Hif.
  assert (Hq : (1 < i / f)%R).
  { apply Rmult_lt_reg_r with f; [lra |].
    unfold Rdiv. rewrite Rmult_assoc, Rinv_l by lra. lra. }
  split.
  - rewrite <- ln_1. apply ln_increasing; lra.
  - rewrite exp_Ropp, exp_ln by lra. field. lra.
Qed.

(** X4.  On an instance that satisfies the relation of [_exp_facto], with
    [initial_epsilon > final_epsilon > 0] and
    [step_for_final_epsilon > 0], every step that is not negative gets an
    epsilon between [final_epsilon] and [initial_epsilon]. *)
Theorem epsilon_within_bounds (self : TrainingParam) (current_step : value) :
  exp_facto_inv self ->
  (to_R (initial_epsilon self) > to_R (final_epsilon self))%R ->
  (to_R (final_epsilon self) > 0)%R ->
  (to_R (step_for_final_epsilon self) > 0)%R ->
  (0 <= to_R current_step)%R ->
  exists v,
    fst (get_next_epsilon current_step self) = Ok v /\
    (to_R (final_epsilon self) <= to_R v <= to_R (initial_epsilon self))%R.
Proof.
  intros [Hinv _] Hif Hf Hs Hc. specialize (Hinv Hf).
  destruct (Rlt_dec (to_R (step_for_final_epsilon self)) (to_R current_step))
    as [Hgt | Hle].
  - exists (final_epsilon self). split; [| lra].
    apply get_next_epsilon_final. exact Hgt.
  - eexists. split; [apply get_next_epsilon_decay; [exact Hle | lra] |].
    cbn [to_R]. rewrite Hinv. cbn [to_R].
    destruct (exp_facto_positive _ _ Hf Hif) as [Hk He].
    destruct (decay_factor_bounds (to_R current_step)
                (to_R (step_for_final_epsilon self))
                (ln (to_R (initial_epsilon self) / to_R (final_epsilon self))))
      as [Hlo Hhi]; try lra.
    rewrite He in Hlo.
    set (i := to_R (initial_epsilon self)) in *.
    set (f := to_R (final_epsilon self)) in *.
    remember (exp (- (to_R current_step / to_R (step_for_final_epsilon self))
                   * ln (i / f))) as E.
    assert (Hfi : (i * (f / i) = f)%R) by (field; lra).
    assert (Hi0 : (0 <= i)%R) by lra.
    pose proof (Rmult_le_compat_l i _ _ Hi0 Hlo) as H1.
    pose proof (Rmult_le_compat_l i _ _ Hi0 Hhi) as H2.
    lra.
Qed.

Lemma epsilon_within_bounds_witness :
  exists v,
    fst (get_next_epsilon (PInt 50000) default_instance) = Ok v /\
    (1 / (7 * 288) <= to_R v <= 4 / 10)%R.
Proof.
  apply (epsilon_within_bounds default_instance (PInt 50000)
           default_instance_inv);
    cbn; lra.
Defined.

Lemma decay_factor_antitone (c1 c2 s k : R) :
  (0 < s)%R -> (0 < k)%R ->
  ((c1 <= c2)%R -> (exp (- (c2 / s) * k) <= exp (- (c1 / s) * k))%R) /\
  ((c1 < c2)%R -> (exp (- (c2 / s) * k) < exp (- (c1 / s) * k))%R).
Proof.
  intros Hs Hk.
  assert (Hinv : (0 < / s)%R) by (apply Rinv_0_lt_compat, Hs).
  split; intros H.
  - apply exp_le. unfold Rdiv.
    assert (Hd : (c1 * / s <= c2 * / s)%R)
      by (apply Rmult_le_compat_r; lra).
    rewrite !Ropp_mult_distr_l_reverse. apply Ropp_le_contravar.
    apply Rmult_le_compat_r; lra.
  - apply exp_increasing. unfold Rdiv.
    assert (Hd : (c1 * / s < c2 * / s)%R)
      by (apply Rmult_lt_compat_r; lra).
    rewrite !Ropp_mult_distr_l_reverse. apply Ropp_lt_contravar.
    apply Rmult_lt_compat_r; lra.
Qed.

(** X5.  Under the hypotheses of X4 the epsilon never goes up, on the
    whole line of steps and across [step_for_final_epsilon]: a larger
    step gets an epsilon that is not larger, and a strictly smaller one
    while the larger step has not passed [step_for_final_epsilon]. *)
Theorem epsilon_never_increases (self : TrainingParam) (c1 c2 : value) :
  exp_facto_inv self ->
  (to_R (initial_epsilon self) > to_R (final_epsilon self))%R ->
  (to_R (final_epsilon self) > 0)%R ->
  (to_R (step_for_final_epsilon self) > 0)%R ->
  (to_R c1 <= to_R c2)%R ->
  exists v1 v2,
    fst (get_next_epsilon c1 self) = Ok v1 /\
    fst (get_next_epsilon c2 self) = Ok v2 /\
    (to_R v2 <= to_R v1)%R /\
    ((to_R c1 < to_R c2)%R ->
     (to_R c2 <= to_R (step_for_final_epsilon self))%R ->
     (to_R v2 < to_R v1)%R).
Proof.
  intros [Hinv _] Hif Hf Hs H12. specialize (Hinv Hf).
  destruct (exp_facto_positive _ _ Hf Hif) as [Hk He].
  set (i := to_R (initial_epsilon self)) in *.
  set (f := to_R (final_epsilon self)) in *.
  set (s := to_R (step_for_final_epsilon self)) in *.
  assert (Hi0 : (0 < i)%R) by lra.
  destruct (Rlt_dec s (to_R c2)) as [Hgt2 | Hle2].
  - destruct (Rlt_dec s (to_R c1)) as [Hgt1 | Hle1].
    + exists (final_epsilon self), (final_epsilon self).
      split; [apply get_next_epsilon_final, Hgt1 |].
      split; [apply get_next_epsilon_final, Hgt2 |].
      split; [lra | intros _ H; unfold s in *; lra].
    + eexists. exists (final_epsilon self).
      split; [apply get_next_epsilon_decay; fold s; [exact Hle1 | lra] |].
      split; [apply get_next_epsilon_final, Hgt2 |].
      split; [| intros _ H; unfold s in *; lra].
      cbn [to_R]. fold i f s. rewrite Hinv. cbn [to_R].
      assert (Hc1 : (to_R c1 <= s)%R) by lra.
      destruct (decay_factor_antitone (to_R c1) s s (ln (i / f)) Hs Hk)
        as [Hmono _].
      specialize (Hmono Hc1).
      replace (- (s / s) * ln (i / f))%R with (- ln (i / f))%R in Hmono
        by (field; lra).
      rewrite He in Hmono.
      assert (Hfi : (i * (f / i) = f)%R) by (field; lra).
      pose proof (Rmult_le_compat_l i _ _ (Rlt_le _ _ Hi0) Hmono). lra.
  - assert (Hle1 : ~ (s < to_R c1)%R) by lra.
    eexists. eexists.
    split; [apply get_next_epsilon_decay; fold s; [exact Hle1 | lra] |].
    split; [apply get_next_epsilon_decay; fold s; [exact Hle2 | lra] |].
    cbn [to_R]. fold i f s. rewrite Hinv. cbn [to_R].
    destruct (decay_factor_antitone (to_R c1) (to_R c2) s (ln (i / f)) Hs Hk)
      as [Hmono Hstrict].
    split.
    + apply Rmult_le_compat_l; [lra | apply Hmono, H12].
    + intros Hlt _. apply Rmult_lt_compat_l; [exact Hi0 | apply Hstrict, Hlt].
Qed.

Lemma epsilon_never_increases_witness :
  exists v1 v2,
    fst (get_next_epsilon (PInt 99999) default_instance) = Ok v1 /\
    fst (get_next_epsilon (PInt 100001) default_instance) = Ok v2 /\
    (to_R v2 <= to_R v1)%R.
Proof.
  destruct (epsilon_never_increases default_instance (PInt 99999) (PInt 100001)
              default_instance_inv
              ltac:(cbn; lra) ltac:(cbn; lra) ltac:(cbn; lra) ltac:(cbn; lra))
    as (v1 & v2 & H1 & H2 & Hle & _).
  exists v1, v2. split; [exact H1 | split; [exact H2 | exact Hle]].
Defined.



(** ** More on [to_dict] and [from_dict] *)

Lemma is_int_py_int (v : value) : is_int (py_int v) = true.
Proof. destruct v; reflexivity. Qed.

Lemma is_float_py_float (v : value) : is_float (py_float v) = true.
Proof. reflexivity. Qed.



(** X7.  [to_dict] does not change the object.  In the dictionary it
    returns, the keys are the names of [_int_attr] and then of
    [_float_attr], each once; the value under a name of [_int_attr] is an
    int and the value under a name of [_float_attr] is a float, whether
    the attribute itself holds an int or a float. *)
Theorem to_dict_typed (self : TrainingParam) :
  snd (to_dict self) = self /\
  forall d,
    fst (to_dict self) = Ok d ->
    map fst d = (_int_attr ++ _float_attr)%list /\
    NoDup (map fst d) /\
    forall k v, dict_getitem d k = Ok v ->
      (In k _int_attr /\ is_int v = true) \/
      (In k _float_attr /\ is_float v = true).
Proof.
  rewrite to_dict_eq. cbn [fst snd]. split; [reflexivity |].
  intros d Hd. injection Hd as <-. split; [reflexivity |]. split.
  - cbn [map fst].
    repeat (constructor;
      [cbn [In]; intros H;
       repeat (destruct H as [H | H]; [discriminate H |]); exact H |]).
    constructor.
  - intros k v. unfold dict_getitem. cbn [assoc].
    repeat match goal with
    | |- context [String.eqb k ?s] =>
        destruct (String.eqb_spec k s) as [-> | _];
          [intros H; injection H as <-;
           first [left; split; [cbn; tauto | apply is_int_py_int]
                 | right; split; [cbn; tauto | apply is_float_py_float]] |]
    end.
    discriminate.
Qed.

Lemma to_dict_typed_witness :
  map fst (saved_dict default_instance) = (_int_attr ++ _float_attr)%list /\
  dict_getitem (saved_dict default_instance) "step_for_final_epsilon"
  = Ok (PInt (Rtrunc 100000)).
Proof.
  assert (Hd : fst (to_dict default_instance)
               = Ok (saved_dict default_instance)).
  { unfold saved_dict. rewrite to_dict_eq. reflexivity. }
  destruct (proj2 (to_dict_typed default_instance) _ Hd) as (Hk & _ & _).
  split; [exact Hk |].
  unfold saved_dict. rewrite to_dict_eq. reflexivity.
Defined.

(** X8.  The dictionary of [to_dict] depends on the attributes of
    [_int_attr] and [_float_attr] only: two instances that agree on them
    get the same dictionary, so that neither [_exp_facto] nor
    [max_iter_fun] is written. *)
Theorem to_dict_persisted_only (self self' : TrainingParam) :
  (forall nm, In nm (_int_attr ++ _float_attr) ->
     getattr self' nm = getattr self nm) ->
  fst (to_dict self') = fst (to_dict self).
Proof.
  intros H. rewrite !to_dict_eq. cbn [fst].
  assert (Hf : forall nm, In nm (_int_attr ++ _float_attr) ->
            forall v v', getattr self' nm = Ok v' -> getattr self nm = Ok v ->
            v' = v).
  { intros nm Hin v v' H1 H2. rewrite (H nm Hin), H2 in H1. congruence. }
  repeat match goal with
  | |- context [py_int (?p self')] =>
      match goal with
      | |- context [(?k, py_int (p self'))] =>
          rewrite (Hf k ltac:(cbn; tauto) (p self) (p self') eq_refl eq_refl)
      end
  | |- context [py_float (?p self')] =>
      match goal with
      | |- context [(?k, py_float (p self'))] =>
          rewrite (Hf k ltac:(cbn; tauto) (p self) (p self') eq_refl eq_refl)
      end
  end.
  reflexivity.
Qed.

Lemma to_dict_persisted_only_witness :
  fst (to_dict (setattr default_instance "_exp_facto" (PInt 1)))
  = fst (to_dict default_instance).
Proof.
  apply (to_dict_persisted_only default_instance
           (setattr default_instance "_exp_facto" (PInt 1))).
  intros nm Hin. cbn [app In _int_attr _float_attr] in Hin.
  repeat (destruct Hin as [<- | Hin]; [reflexivity |]). contradiction.
Defined.










Lemma fold_apply_override_ext (tmp tmp' : dict) (coerce : value -> value)
  (l : list string) (res : TrainingParam) :
  (forall nm, In nm l -> assoc nm tmp' = assoc nm tmp) ->
  fold_left (apply_override tmp' coerce) l res
  = fold_left (apply_override tmp coerce) l res.
Proof.
  revert res. induction l as [| nm l IH]; intros res H; [reflexivity |].
  cbn [fold_left].
  assert (Hnm : apply_override tmp' coerce res nm
                = apply_override tmp coerce res nm).
  { unfold apply_override. rewrite (H nm (or_introl eq_refl)). reflexivity. }
  rewrite Hnm. apply IH. intros k Hk. apply H. right. exact Hk.
Qed.

Lemma from_dict_loops_ext (tmp tmp' : dict) :
  (forall nm, In nm (_int_attr ++ _float_attr) -> assoc nm tmp' = assoc nm tmp) ->
  from_dict_loops tmp' = from_dict_loops tmp.
Proof.
  intros H. unfold from_dict_loops.
  rewrite (fold_apply_override_ext tmp tmp' py_int _int_attr).
  - apply fold_apply_override_ext.
    intros nm Hin. apply H, in_or_app. right. exact Hin.
  - intros nm Hin. apply H, in_or_app. left. exact Hin.
Qed.

(** X11.  [from_dict] reads the keys of [_int_attr] and [_float_attr] and
    no other: two mappings with the same entries for these names give the
    same instance, and a mapping with none of these keys gives the
    instance that [TrainingParam()] builds. *)
Theorem from_dict_known_keys_only :
  (forall tmp tmp' : dict,
     (forall nm, In nm (_int_attr ++ _float_attr) ->
        assoc nm tmp' = assoc nm tmp) ->
     from_dict tmp' = from_dict tmp) /\
  (forall tmp : dict,
     (forall nm, In nm (_int_attr ++ _float_attr) ->
        dict_contains tmp nm = false) ->
     from_dict tmp = __init__ kw.defaults).
Proof.
  assert (Hext : forall tmp tmp' : dict,
    (forall nm, In nm (_int_attr ++ _float_attr) ->
       assoc nm tmp' = assoc nm tmp) ->
    from_dict tmp' = from_dict tmp).
  { intros tmp tmp' H. rewrite !from_dict_eq.
    rewrite (from_dict_loops_ext tmp tmp' H). reflexivity. }
  split; [exact Hext |].
  intros tmp H. rewrite (Hext [] tmp).
  - rewrite from_dict_eq, init_defaults.
    change (from_dict_loops []) with default_instance.
    rewrite exp_facto_of_pos by (cbn; lra). reflexivity.
  - intros nm Hin. specialize (H nm Hin). unfold dict_contains in H.
    destruct (assoc nm tmp); [discriminate H | reflexivity].
Qed.

Lemma from_dict_known_keys_only_witness :
  from_dict [("comment", PInt 1); ("_exp_facto", PFloat 3)]
  = __init__ kw.defaults.
Proof.
  apply (proj2 from_dict_known_keys_only).
  intros nm Hin. cbn [app In _int_attr _float_attr] in Hin.
  repeat (destruct Hin as [<- | Hin]; [reflexivity |]). contradiction.
Defined.





(** ** [default_max_iter_fun] on every integer *)

Lemma default_max_iter_fun_quot (n : Z) :
  (Z.abs n < 6755399441055749)%Z ->
  default_max_iter_fun n = Ok (PInt (Z.quot n 10)).
Proof.
  intros Hn. destruct (Z.le_gt_cases 0 n) as [H | H].
  - rewrite Z.quot_div_nonneg by lia.
    apply default_max_iter_fun_tenth. lia.
  - replace n with (- - n)%Z at 1 by lia.
    rewrite default_max_iter_fun_odd, default_max_iter_fun_tenth by lia.
    cbn [rbind py_neg]. do 2 f_equal.
    rewrite <- (Z.quot_div_nonneg (- n) 10) by lia.
    rewrite Z.quot_opp_l by lia. lia.
Qed.

(** X14.  For every integer [n] of absolute value below
    [6755399441055749], [default_max_iter_fun(n)] is the quotient of [n]
    by ten rounded toward zero, so that it is [0] exactly when
    [-10 < n < 10]; and for every integer whatever,
    [default_max_iter_fun(-n)] is the opposite of
    [default_max_iter_fun(n)], raising when that one raises. *)
Theorem default_max_iter_fun_truncates :
  (forall n : Z, (Z.abs n < 6755399441055749)%Z ->
     default_max_iter_fun n = Ok (PInt (Z.quot n 10))) /\
  (forall n : Z,
     default_max_iter_fun (- n)
     = rbind (default_max_iter_fun n) (fun v => Ok (py_neg v))) /\
  (forall n : Z, (Z.abs n < 6755399441055749)%Z ->
     default_max_iter_fun n = Ok (PInt 0) <-> (-10 < n < 10)%Z).
Proof.
  split; [exact default_max_iter_fun_quot | split].
  - exact default_max_iter_fun_odd.
  - intros n Hn. rewrite default_max_iter_fun_quot by exact Hn. split.
    + intros H. injection H as H.
      pose proof (Z.quot_rem n 10 ltac:(lia)) as Hqr.
      destruct (Z.le_gt_cases 0 n) as [Hp | Hp].
      * pose proof (Z.rem_bound_pos n 10 Hp ltac:(lia)) as Hr.
        rewrite H in Hqr. revert Hqr Hr.
        generalize (Z.rem n 10). intros r Hqr Hr. lia.
      * pose proof (Z.rem_bound_pos_neg n 10 ltac:(lia) ltac:(lia)) as Hr.
        rewrite H in Hqr. revert Hqr Hr.
        generalize (Z.rem n 10). intros r Hqr Hr. lia.
    + intros H. do 2 f_equal. apply Z.quot_small_iff; lia.
Qed.

Lemma default_max_iter_fun_truncates_witness :
  default_max_iter_fun (-7) = Ok (PInt 0).
Proof.
  apply (proj2 (proj2 default_max_iter_fun_truncates) (-7)%Z); lia.
Defined.

(** X15.  From [0] up to [6755399441055749], more successes never give
    fewer steps and ten more successes give exactly one more step.  This
    does not go on for ever: at [2^60] ten more successes give no further
    step, the two counts having the same float; and an int of [2^1024]
    or more, of either sign, has no float, so that
    [default_max_iter_fun] raises [OverflowError]. *)
Theorem default_max_iter_fun_grows :
  (forall n m : Z, (0 <= n <= m)%Z -> (m < 6755399441055749)%Z ->
     exists a b, default_max_iter_fun n = Ok (PInt a) /\
                 default_max_iter_fun m = Ok (PInt b) /\ (a <= b)%Z) /\
  (forall n : Z, (0 <= n)%Z -> (n + 10 < 6755399441055749)%Z ->
     exists a, default_max_iter_fun n = Ok (PInt a) /\
               default_max_iter_fun (n + 10) = Ok (PInt (a + 1))) /\
  default_max_iter_fun (2 ^ 60 + 10) = default_max_iter_fun (2 ^ 60) /\
  (forall n : Z, (2 ^ 1024 <= Z.abs n)%Z ->
     default_max_iter_fun n = Raise OverflowError).
Proof.
  split; [| split; [| split]].
  - intros n m Hnm Hm. exists (n / 10)%Z, (m / 10)%Z.
    rewrite !default_max_iter_fun_tenth by lia.
    split; [reflexivity | split; [reflexivity |]].
    apply Z.div_le_mono; lia.
  - intros n Hn Hm. exists (n / 10)%Z.
    rewrite !default_max_iter_fun_tenth by lia.
    split; [reflexivity |]. do 2 f_equal.
    replace (n + 10)%Z with (n + 1 * 10)%Z by lia.
    rewrite Z.div_add by lia. reflexivity.
  - vm_compute. reflexivity.
  - intros n Hn.
    assert (H0 : (0 < 2 ^ 1024)%Z) by (apply Z.pow_pos_nonneg; lia).
    assert (Hp : forall k, (2 ^ 1024 <= k)%Z ->
                 default_max_iter_fun k = Raise OverflowError).
    { intros k Hk. unfold default_max_iter_fun.
      rewrite float_of_int_overflow by exact Hk. reflexivity. }
    destruct (Z.le_gt_cases 0 n) as [H | H].
    + apply Hp. rewrite Z.abs_eq in Hn by lia. exact Hn.
    + replace n with (- - n)%Z by lia.
      rewrite default_max_iter_fun_odd, Hp; [reflexivity |].
      rewrite Z.abs_neq in Hn by lia. exact Hn.
Qed.

Lemma default_max_iter_fun_grows_witness :
  exists a, default_max_iter_fun 95 = Ok (PInt a) /\
            default_max_iter_fun (95 + 10) = Ok (PInt (a + 1)).
Proof.
  apply (proj1 (proj2 default_max_iter_fun_grows) 95%Z); lia.
Defined.

(** ** Saving twice *)





(** ** The schedule through a round trip *)











(** X20.  Nothing clamps a negative step: under the hypotheses of X4, a
    step below zero gets an epsilon strictly above [initial_epsilon]. *)
Theorem epsilon_negative_step (self : TrainingParam) (current_step : value) :
  exp_facto_inv self ->
  (to_R (initial_epsilon self) > to_R (final_epsilon self))%R ->
  (to_R (final_epsilon self) > 0)%R ->
  (to_R (step_for_final_epsilon self) > 0)%R ->
  (to_R current_step < 0)%R ->
  exists v,
    fst (get_next_epsilon current_step self) = Ok v /\
    (to_R (initial_epsilon self) < to_R v)%R.
Proof.
  intros [Hinv _] Hif Hf Hs Hc. specialize (Hinv Hf).
  destruct (exp_facto_positive _ _ Hf Hif) as [Hk _].
  eexists. split; [apply get_next_epsilon_decay; lra |].
  cbn [to_R]. rewrite Hinv. cbn [to_R].
  destruct (decay_factor_antitone (to_R current_step) 0
              (to_R (step_for_final_epsilon self)) _ Hs Hk) as [_ Hstrict].
  specialize (Hstrict Hc).
  replace (- (0 / to_R (step_for_final_epsilon self))
           * ln (to_R (initial_epsilon self) / to_R (final_epsilon self)))%R
    with 0%R in Hstrict by (unfold Rdiv; ring).
  rewrite exp_0 in Hstrict.
  rewrite <- (Rmult_1_r (to_R (initial_epsilon self))) at 1.
  apply Rmult_lt_compat_l; lra.
Qed.

Lemma epsilon_negative_step_witness :
  exists v,
    fst (get_next_epsilon (PInt (-1)) default_instance) = Ok v /\
    (4 / 10 < to_R v)%R.
Proof.
  apply (epsilon_negative_step default_instance (PInt (-1))
           default_instance_inv);
    cbn; lra.
Defined.
